(** * LPS-MCP: the path sandbox, the validated walkers and the thought log

    A shallow embedding of [src/server.py] and [src/server_es.py].

    - [PyStr]      the [str] methods the source calls ([startswith], [split],
                   [lower], [in], ...), on byte strings;
    - [PosixPath]  the pure part of [os.path] ([join], [normpath], [abspath],
                   [dirname], [relpath]);
    - [OS]         a finite file system and the calls that read it
                   ([lstat], [realpath], [isdir], [listdir], [os.walk]);
    - [Sandbox]    [expand_home], [validate_path], [search_files],
                   [directory_tree], [search_files_tool], once for both
                   source files, which differ in their message texts only;
    - [Thinking]   [SequentialThinkingServer];
    - [Tools]      [list_directory], [list_allowed_directories];
    - [ThinkingTool] the tool [sequentialthinking] and sequences of calls.

    Strings are sequences of bytes; [lower] acts on the ASCII letters. *)

From Stdlib Require Import String Ascii List ZArith Lia Bool.
Import ListNotations.
Open Scope string_scope.

(* ------------------------------------------------------------------ *)
(** ** Python [str] methods *)

Module PyStr.

(** [s.startswith(p)] *)
Definition startswith (s p : string) : bool := String.prefix p s.

(** [s.split(c)] for a one-character separator: never the empty list. *)
Fixpoint split (c : ascii) (s : string) : list string :=
  match s with
  | EmptyString => [""]
  | String a s' =>
      if Ascii.eqb a c then "" :: split c s'
      else match split c s' with
           | [] => [String a ""]
           | h :: t => String a h :: t
           end
  end.

(** [s[1:]] *)
Definition tail (s : string) : string :=
  match s with
  | EmptyString => ""
  | String _ s' => s'
  end.

(** [s.endswith(c)] for a one-character [c] *)
Fixpoint endswith_char (s : string) (c : ascii) : bool :=
  match s with
  | EmptyString => false
  | String a EmptyString => Ascii.eqb a c
  | String _ s' => endswith_char s' c
  end.

(** [s == c * len(s)]: every character of [s] is [c] *)
Fixpoint all_char (c : ascii) (s : string) : bool :=
  match s with
  | EmptyString => true
  | String a s' => Ascii.eqb a c && all_char c s'
  end.

(** [s.rstrip(c)] *)
Fixpoint rstrip (c : ascii) (s : string) : string :=
  match s with
  | EmptyString => ""
  | String a s' => if all_char c (String a s') then "" else String a (rstrip c s')
  end.

(** [sub in s] *)
Fixpoint contains (sub s : string) : bool :=
  String.prefix sub s ||
  match s with
  | EmptyString => false
  | String _ s' => contains sub s'
  end.

Definition lower_char (a : ascii) : ascii :=
  let n := nat_of_ascii a in
  if (65 <=? n)%nat && (n <=? 90)%nat then ascii_of_nat (n + 32) else a.

(** [s.lower()] *)
Fixpoint lower (s : string) : string :=
  match s with
  | EmptyString => ""
  | String a s' => String (lower_char a) (lower s')
  end.

End PyStr.

(* ------------------------------------------------------------------ *)
(** ** [os.path] on POSIX: the functions that do not read the file system *)

Module PosixPath.
Import PyStr.

Definition sep : ascii := "/"%char.

Definition isabs (p : string) : bool := startswith p "/".

(** [join(a, b)] *)
Definition join (a b : string) : string :=
  if startswith b "/" then b
  else if (a =? "") || endswith_char a sep then a ++ b
  else a ++ "/" ++ b.

(** [join(a, *bs)] *)
Definition join_all (a : string) (bs : list string) : string :=
  fold_left join bs a.

(** One turn of the loop of [normpath] over the components; [new_comps]
    is held with its last element first. *)
Definition normpath_step (initial_slashes : nat) (new_comps : list string)
  (comp : string) : list string :=
  if (comp =? "") || (comp =? ".") then new_comps
  else if negb (comp =? "..")
          || (Nat.eqb initial_slashes 0 && match new_comps with [] => true | _ => false end)
          || match new_comps with l :: _ => l =? ".." | [] => false end
       then comp :: new_comps
       else match new_comps with
            | _ :: popped => popped
            | [] => []
            end.

(** The count [normpath] keeps of the leading slashes: POSIX allows one
    or two, and treats three or more as one. *)
Definition initial_slashes (path : string) : nat :=
  if startswith path "/" then
    if startswith path "//" && negb (startswith path "///") then 2%nat else 1%nat
  else 0%nat.

(** [sep * initial_slashes] *)
Definition slashes (initial_slashes : nat) : string :=
  match initial_slashes with
  | 0%nat => ""
  | 1%nat => "/"
  | _ => "//"
  end.

Definition normpath (path : string) : string :=
  if path =? "" then "."
  else
    let comps := split sep path in
    let new_comps :=
      rev (fold_left (normpath_step (initial_slashes path)) comps []) in
    let path' := slashes (initial_slashes path) ++ String.concat "/" new_comps in
    if path' =? "" then "." else path'.

(** A string without separator, as the components of a split path are. *)
Fixpoint no_sep (s : string) : bool :=
  match s with
  | EmptyString => true
  | String a s' => negb (Ascii.eqb a sep) && no_sep s'
  end.

(** The stack of components [normpath] has built, last component first,
    is clean: every component is a name or [..], and [..] stands only
    at the front of a relative path. *)
Definition is_comp (c : string) : Prop :=
  c <> "" /\ c <> "." /\ no_sep c = true.

Fixpoint dots_lead (stack : list string) : Prop :=
  match stack with
  | [] => True
  | c :: below => (c = ".." -> Forall (eq "..") below) /\ dots_lead below
  end.

Definition clean (initial_slashes : nat) (stack : list string) : Prop :=
  Forall is_comp stack
  /\ match initial_slashes with
     | 0%nat => dots_lead stack
     | _ => Forall (fun c => c <> "..") stack
     end.

(** A text that is empty or starts with no separator, as the joined
    components of a clean stack are. *)
Definition plain_start (t : string) : Prop :=
  t = "" \/ exists a rest, t = String a rest /\ Ascii.eqb sep a = false.

(** [abspath(path)], in a process whose working directory is [cwd] *)
Definition abspath (cwd path : string) : string :=
  normpath (if isabs path then path else join cwd path).

(** [p[:p.rfind('/') + 1]] *)
Fixpoint upto_last_sep (p : string) : string :=
  match p with
  | EmptyString => ""
  | String a p' =>
      match upto_last_sep p' with
      | EmptyString => if Ascii.eqb a sep then "/" else ""
      | h => String a h
      end
  end.

Definition dirname (p : string) : string :=
  let head := upto_last_sep p in
  if negb (head =? "") && negb (all_char sep head) then rstrip sep head else head.

(** [len(commonprefix([l1, l2]))] on two lists of components *)
Fixpoint common_len (l1 l2 : list string) : nat :=
  match l1, l2 with
  | a :: l1', b :: l2' => if a =? b then S (common_len l1' l2') else 0
  | _, _ => 0
  end.

Definition nonempty (s : string) : bool := negb (s =? "").

(** [relpath(path, start)]; [None] is its [ValueError("no path specified")]. *)
Definition relpath (cwd path start : string) : option string :=
  if path =? "" then None
  else
    let start_list := filter nonempty (split sep (abspath cwd start)) in
    let path_list := filter nonempty (split sep (abspath cwd path)) in
    let i := common_len start_list path_list in
    let rel_list := (repeat ".." (List.length start_list - i) ++ skipn i path_list)%list in
    match rel_list with
    | [] => Some "."
    | a :: bs => Some (join_all a bs)
    end.

End PosixPath.

(* ------------------------------------------------------------------ *)
(** ** The file system and the calls that read it *)

Module OS.
Import PyStr PosixPath.

(** What sits at a canonical absolute path: a regular file, a directory
    with the names of its entries in listing order, or a symbolic link
    with its target text. *)
Inductive ftype : Type :=
| Reg
| Directory (entries : list string)
| Link (target : string).

(** A snapshot of the file system: canonical absolute path, node. *)
Definition filesystem : Type := list (string * ftype).

Fixpoint node_at (fs : filesystem) (p : string) : option ftype :=
  match fs with
  | [] => None
  | (k, n) :: fs' => if k =? p then Some n else node_at fs' p
  end.

(** [p[p.rfind('/') + 1:]] *)
Fixpoint after_last_sep (p : string) : string :=
  match p with
  | EmptyString => ""
  | String a p' =>
      if contains "/" p' then after_last_sep p'
      else if Ascii.eqb a sep then p' else String a p'
  end.

(** The [seen] dictionary of [posixpath._joinrealpath]: a link path maps
    to [None] while it is being resolved and to its resolution after. *)
Definition seen_t : Type := list (string * option string).

Fixpoint seen_get (seen : seen_t) (k : string) : option (option string) :=
  match seen with
  | [] => None
  | (k', v) :: seen' => if k' =? k then Some v else seen_get seen' k
  end.

(** A call of [_joinrealpath] leaves in [seen] what it found there. *)
Definition grows (resolve : string -> string -> seen_t -> string * bool * seen_t)
  : Prop :=
  forall path rest seen,
    incl (map fst seen) (map fst (snd (resolve path rest seen))).

Section Calls.
Variable fs : filesystem.
Variable cwd : string.

(** [os.lstat] at a path whose directory part holds no link, which is
    how [realpath] calls it; [None] is its [OSError]. *)
Definition lstat (p : string) : option ftype :=
  if p =? "" then None
  else node_at fs (if isabs p then p else join cwd p).

(** The [while rest] loop of [posixpath._joinrealpath(path, rest,
    strict=False, seen)], over the components of [rest]; [resolve] is the
    recursive call on the target of a link.  The result is the path, the
    [ok] flag and the [seen] dictionary as the call leaves it. *)
Fixpoint joinrealpath_loop
  (resolve : string -> string -> seen_t -> string * bool * seen_t)
  (names : list string) (path : string) (seen : seen_t)
  {struct names} : string * bool * seen_t :=
  match names with
  | [] => (path, true, seen)
  | name :: names' =>
      if (name =? "") || (name =? ".") then
        joinrealpath_loop resolve names' path seen
      else if name =? ".." then
        if path =? "" then joinrealpath_loop resolve names' ".." seen
        else
          let head := dirname path in
          if after_last_sep path =? ".."
          then joinrealpath_loop resolve names' (join_all head [".."; ".."]) seen
          else joinrealpath_loop resolve names' head seen
      else
        let newpath := join path name in
        match lstat newpath with
        | Some (Link target) =>
            match seen_get seen newpath with
            | Some (Some p) => joinrealpath_loop resolve names' p seen
            | Some None =>
                (join newpath (String.concat "/" names'), false, seen)
            | None =>
                let '(p, ok, seen') :=
                  resolve path target ((newpath, None) :: seen) in
                if ok
                then joinrealpath_loop resolve names' p ((newpath, Some p) :: seen')
                else (join p (String.concat "/" names'), false, seen')
            end
        | _ => joinrealpath_loop resolve names' newpath seen
        end
  end.

(** [posixpath._joinrealpath]; [fuel] bounds the nesting of the calls on
    link targets. *)
Fixpoint joinrealpath (fuel : nat) (path rest : string) (seen : seen_t)
  {struct fuel} : string * bool * seen_t :=
  match fuel with
  | O => (join path rest, false, seen)
  | S fuel' =>
      let path0 := if isabs rest then "/" else path in
      let rest0 := if isabs rest then tail rest else rest in
      joinrealpath_loop (joinrealpath fuel') (split sep rest0) path0 seen
  end.

(** A call on a link target is made for a link path that is not yet in
    [seen], and a link path is a key of the file system as it stands or
    joined to the working directory: the calls nest less than twice the
    number of nodes. *)
Definition realpath_fuel : nat := S (2 * List.length fs).

(** The canonical path [os.path.realpath(filename)] computes with
    [strict=False], the default and the way the source calls it: the
    path is resolved as far as it exists and the remainder appended. *)
Definition realpath_of (filename : string) : string :=
  abspath cwd (fst (fst (joinrealpath realpath_fuel "" filename []))).

(** The link paths that can still be entered: the keys of the file
    system that no absolute key of [seen] equals, and those that no
    relative key of [seen] leads to. *)
Definition reaches_key (absolute : bool) (seen : seen_t) (key : string) : bool :=
  existsb (fun k =>
             Bool.eqb (isabs k) absolute
             && ((if absolute then k else join cwd k) =? key))
    (map fst seen).

Definition pending (seen : seen_t) : nat :=
  (List.length (filter (fun key => negb (reaches_key true seen key)) (map fst fs))
   + List.length (filter (fun key => negb (reaches_key false seen key)) (map fst fs)))%nat.

(** [os.stat]: the node a path leads to, every link followed. *)
Definition stat (p : string) : option ftype :=
  if p =? "" then None
  else match node_at fs (realpath_of p) with
       | Some (Link _) => None
       | n => n
       end.

(** [os.path.isdir] *)
Definition isdir (p : string) : bool :=
  match stat p with
  | Some (Directory _) => true
  | _ => false
  end.

(** [os.path.islink]: [lstat] follows the links of the directory part. *)
Definition islink (p : string) : bool :=
  match node_at fs (join (realpath_of (dirname p)) (after_last_sep p)) with
  | Some (Link _) => true
  | _ => false
  end.

(** [os.listdir]; [None] is its [OSError]. *)
Definition listdir (p : string) : option (list string) :=
  match stat p with
  | Some (Directory entries) => Some entries
  | _ => None
  end.

(** The directory scan at the head of [os.walk]: the names of [top]
    split by [entry.is_dir()], or [None] when [scandir] raises. *)
Definition scan (top : string) : option (list string * list string) :=
  match listdir top with
  | None => None
  | Some names =>
      Some (filter (fun n => isdir (join top n)) names,
            filter (fun n => negb (isdir (join top n))) names)
  end.

(** [for root, dirs, files in os.walk(top): body], top-down, links not
    followed, scan errors ignored.  The loop body receives the state of
    the caller and the triple, and gives back the new state with the
    content it left in [dirs]: the generator reads that same list
    object when it resumes, so what the body removed is not visited.
    [depth] bounds the nesting of directories. *)
Fixpoint walk_for {St : Type} (depth : nat)
  (body : St -> string -> list string -> list string -> St * list string)
  (top : string) (st : St) {struct depth} : St :=
  match depth with
  | O => st
  | S depth' =>
      match scan top with
      | None => st
      | Some (dirs, nondirs) =>
          let '(st', dirs') := body st top dirs nondirs in
          fold_left
            (fun s dirname =>
               let new_path := join top dirname in
               if islink new_path then s
               else walk_for depth' body new_path s)
            dirs' st'
      end
  end.

End Calls.

End OS.

(* ------------------------------------------------------------------ *)
(** ** The sandbox and the walkers ([server.py], [server_es.py]) *)

Module Sandbox.
Import PyStr PosixPath OS.

(** What [validate_path] gives: the path it returns, or the [ValueError]
    it raises (every [OSError] is caught inside it). *)
Inductive checked : Type :=
| Ok (path : string)
| ValueError (message : string).

(** The texts in which the two source files differ. *)
Record messages : Type := {
  outside_text : string -> list string -> string;
  symlink_text : string;
  parent_outside_text : string;
  parent_missing_text : string -> string;
  no_matches_text : string
}.

(** The process: [sys.argv[1:]], what [os.path.expanduser('~')] returns,
    the working directory and the file system. *)
Record process : Type := {
  argv : list string;
  home : string;
  cwd : string;
  fs : filesystem
}.

(** What a tool call gives: its value, or the exception that leaves it. *)
Inductive exn : Type :=
| ValueErr (message : string)
| OSError
| RecursionError.

Inductive reply (A : Type) : Type :=
| Returns (a : A)
| Raises (e : exn).
Arguments Returns {A} a.
Arguments Raises {A} e.

(** The values [build_tree] makes: strings, lists, and dictionaries with
    their keys in insertion order. *)
#[warnings="-register-all"]
Inductive json : Type :=
| JString (s : string)
| JArray (items : list json)
| JObject (fields : list (string * json)).

Definition newline : string := String (ascii_of_nat 10) "".

Definition normalize_path (p : string) : string := normpath p.

Section Server.
Variable M : messages.
Variable P : process.

Definition expand_home (filepath : string) : string :=
  if startswith filepath "~/" || (filepath =? "~")
  then join (home P) (tail filepath)
  else filepath.

Definition allowed_directories : list string :=
  map (fun dir => normalize_path (abspath (cwd P) (expand_home dir))) (argv P).

(** [any(p.startswith(dir) for dir in allowed_directories)] *)
Definition any_startswith (p : string) : bool :=
  existsb (fun dir => startswith p dir) allowed_directories.

(** [os.path.realpath(p)] inside a [try]: [None] would be an [OSError]. *)
Definition realpath (p : string) : option string :=
  Some (realpath_of (fs P) (cwd P) p).

(** The four [raise] statements of [validate_path], named as the
    specification names its rejections. *)
Definition OutsideAllowedRoots (absolute : string) : checked :=
  ValueError (outside_text M absolute allowed_directories).
Definition SymlinkEscapesRoots : checked :=
  ValueError (symlink_text M).
Definition ParentOutsideAllowedRoots : checked :=
  ValueError (parent_outside_text M).
Definition ParentMissing (parent_dir : string) : checked :=
  ValueError (parent_missing_text M parent_dir).

Definition validate_path (requested_path : string) : checked :=
  let expanded_path := expand_home requested_path in
  let absolute := abspath (cwd P) expanded_path in
  let normalized_requested := normalize_path absolute in
  let is_allowed := any_startswith normalized_requested in
  if negb is_allowed then OutsideAllowedRoots absolute
  else
    match realpath absolute with
    | Some real_path =>
        let normalized_real := normalize_path real_path in
        let is_real_path_allowed := any_startswith normalized_real in
        if negb is_real_path_allowed then SymlinkEscapesRoots
        else Ok real_path
    | None =>
        let parent_dir := dirname absolute in
        match realpath parent_dir with
        | Some real_parent_path =>
            let normalized_parent := normalize_path real_parent_path in
            let is_parent_allowed := any_startswith normalized_parent in
            if negb is_parent_allowed then ParentOutsideAllowedRoots
            else Ok absolute
        | None => ParentMissing parent_dir
        end
    end.

Definition is_ok (c : checked) : bool :=
  match c with
  | Ok _ => true
  | ValueError _ => false
  end.

(** *** [search_files] *)

(** [any(relpath(join(root, d), root_path).startswith(e) for e in
    exclude_patterns)]; [None] is the [ValueError] of [relpath], which
    is reached only when there is a pattern to test. *)
Definition excluded (root_path : string) (exclude_patterns : list string)
  (root d : string) : option bool :=
  match exclude_patterns with
  | [] => Some false
  | _ =>
      match relpath (cwd P) (join root d) root_path with
      | None => None
      | Some rel => Some (existsb (fun e => startswith rel e) exclude_patterns)
      end
  end.

(** The list comprehension assigned to [dirs[:]]. *)
Fixpoint kept_dirs (root_path : string) (exclude_patterns : list string)
  (root : string) (dirs : list string) : option (list string) :=
  match dirs with
  | [] => Some []
  | d :: dirs' =>
      match excluded root_path exclude_patterns root d with
      | None => None
      | Some b =>
          match kept_dirs root_path exclude_patterns root dirs' with
          | None => None
          | Some l => Some (if b then l else d :: l)
          end
      end
  end.

(** One turn of [for name in dirs + files]. *)
Definition check_entry (pattern root : string) (results : list string)
  (name : string) : list string :=
  let full_path := join root name in
  match validate_path full_path with
  | Ok _ =>
      if contains (lower pattern) (lower name)
      then (results ++ [full_path])%list
      else results
  | ValueError _ => results
  end.

(** The body of [for root, dirs, files in os.walk(root_path)]: the new
    [results], and the content of [dirs] when the body ends. *)
Definition search_body (root_path pattern : string)
  (exclude_patterns : list string)
  (results : list string) (root : string) (dirs files : list string)
  : list string * list string :=
  match validate_path root with
  | ValueError _ => (results, dirs)
  | Ok _ =>
      match relpath (cwd P) root root_path with
      | None => (results, dirs)
      | Some rel_path =>
          match kept_dirs root_path exclude_patterns root dirs with
          | None => (results, dirs)
          | Some dirs' =>
              (fold_left (check_entry pattern root) (dirs' ++ files)%list results,
               dirs')
          end
      end
  end.

Definition search_files_upto (depth : nat) (root_path pattern : string)
  (exclude_patterns : list string) : list string :=
  walk_for (fs P) (cwd P) depth
    (search_body root_path pattern exclude_patterns) root_path [].

(** Directories nest no deeper than the file system has nodes. *)
Definition search_files (root_path pattern : string)
  (exclude_patterns : list string) : list string :=
  search_files_upto (S (List.length (fs P))) root_path pattern exclude_patterns.

(** *** [directory_tree] *)

(** One turn of [for entry in entries] in [build_tree], given the call
    that builds the children of a directory. *)
Definition tree_entry (build : string -> reply (list json))
  (current_path : string) (result : reply (list json)) (entry : string)
  : reply (list json) :=
  match result with
  | Raises e => Raises e
  | Returns result =>
      let entry_path := join current_path entry in
      match validate_path entry_path with
      | ValueError _ => Returns result
      | Ok _ =>
          let is_dir := isdir (fs P) (cwd P) entry_path in
          let entry_data :=
            [("name", JString entry);
             ("type", JString (if is_dir then "directory" else "file"))] in
          if is_dir then
            match build entry_path with
            | Raises e => Raises e
            | Returns children =>
                Returns (result ++
                  [JObject (entry_data ++ [("children", JArray children)])])%list
            end
          else Returns (result ++ [JObject entry_data])%list
      end
  end.

(** [build_tree(current_path)]; [depth] is the nesting of calls the
    recursion limit of the interpreter leaves room for. *)
Fixpoint build_tree (depth : nat) (current_path : string)
  {struct depth} : reply (list json) :=
  match depth with
  | O => Raises RecursionError
  | S depth' =>
      match listdir (fs P) (cwd P) current_path with
      | None => Raises OSError
      | Some entries =>
          fold_left (tree_entry (build_tree depth') current_path)
            entries (Returns [])
      end
  end.

(** [directory_tree(path)]: the value it hands to [json.dumps]. *)
Definition directory_tree (depth : nat) (path : string) : reply json :=
  match validate_path path with
  | ValueError message => Raises (ValueErr message)
  | Ok valid_path =>
      match build_tree depth valid_path with
      | Raises e => Raises e
      | Returns tree_data => Returns (JArray tree_data)
      end
  end.

(** *** [search_files_tool] *)

Definition search_files_tool (path pattern : string)
  (exclude_patterns : list string) : reply string :=
  match validate_path path with
  | ValueError message => Raises (ValueErr message)
  | Ok valid_path =>
      let results := search_files valid_path pattern exclude_patterns in
      match results with
      | [] => Returns (no_matches_text M)
      | _ => Returns (String.concat newline results)
      end
  end.

End Server.

(** The texts of [server.py]. *)
Definition english : messages := {|
  outside_text := fun absolute dirs =>
    "Access denied - path outside allowed directories: " ++ absolute
      ++ " not in " ++ String.concat ", " dirs;
  symlink_text := "Access denied - symlink target outside allowed directories";
  parent_outside_text :=
    "Access denied - parent directory outside allowed directories";
  parent_missing_text := fun parent_dir =>
    "Parent directory does not exist: " ++ parent_dir;
  no_matches_text := "No matches found"
|}.

(** The texts of [server_es.py]. *)
Definition spanish : messages := {|
  outside_text := fun absolute dirs =>
    "Acceso denegado - ruta fuera de los directorios permitidos: " ++ absolute
      ++ " no está en " ++ String.concat ", " dirs;
  symlink_text :=
    "Acceso denegado - destino del enlace simbólico fuera de los directorios permitidos";
  parent_outside_text :=
    "Acceso denegado - directorio padre fuera de los directorios permitidos";
  parent_missing_text := fun parent_dir =>
    "El directorio padre no existe: " ++ parent_dir;
  no_matches_text := "No se encontraron coincidencias"
|}.

End Sandbox.

(** [src/server.py] *)
Module ServerPy.
Definition validate_path := Sandbox.validate_path Sandbox.english.
Definition search_files := Sandbox.search_files Sandbox.english.
Definition directory_tree := Sandbox.directory_tree Sandbox.english.
Definition search_files_tool := Sandbox.search_files_tool Sandbox.english.
End ServerPy.

(** [src/server_es.py] *)
Module ServerEsPy.
Definition validate_path := Sandbox.validate_path Sandbox.spanish.
Definition search_files := Sandbox.search_files Sandbox.spanish.
Definition directory_tree := Sandbox.directory_tree Sandbox.spanish.
Definition search_files_tool := Sandbox.search_files_tool Sandbox.spanish.
End ServerEsPy.

(* ------------------------------------------------------------------ *)
(** ** [SequentialThinkingServer] (the same in both source files) *)

Module Thinking.

(** The Python values a thought dictionary holds: [None], booleans,
    integers, strings and lists. *)
#[warnings="-register-all"]
Inductive value : Type :=
| VNone
| VBool (b : bool)
| VInt (n : Z)
| VStr (s : string)
| VList (items : list value).

(** A [dict] with string keys, in insertion order. *)
Definition dict : Type := list (string * value).

Fixpoint lookup (d : dict) (key : string) : option value :=
  match d with
  | [] => None
  | (k, v) :: d' => if k =? key then Some v else lookup d' key
  end.

(** [d.get(key)] *)
Definition get (d : dict) (key : string) : value :=
  match lookup d key with
  | Some v => v
  | None => VNone
  end.

(** [d[key] = v] *)
Fixpoint set (d : dict) (key : string) (v : value) : dict :=
  match d with
  | [] => [(key, v)]
  | (k, w) :: d' => if k =? key then (k, v) :: d' else (k, w) :: set d' key v
  end.

(** [isinstance(v, str)], [isinstance(v, int)] (a [bool] is an [int]),
    [isinstance(v, bool)] *)
Definition is_str (v : value) : bool :=
  match v with VStr _ => true | _ => false end.

Definition is_int (v : value) : bool :=
  match v with VInt _ | VBool _ => true | _ => false end.

Definition is_bool (v : value) : bool :=
  match v with VBool _ => true | _ => false end.

(** The integer an [int] or a [bool] stands for in a comparison. *)
Definition int_of (v : value) : Z :=
  match v with
  | VInt n => n
  | VBool true => 1
  | _ => 0
  end.

(** The truth value of [v] in [if v] and [v and w]. *)
Definition truthy (v : value) : bool :=
  match v with
  | VNone => false
  | VBool b => b
  | VInt n => negb (n =? 0)%Z
  | VStr s => negb (s =? "")
  | VList items => match items with [] => false | _ => true end
  end.

(** A list has no hash: using it as a dictionary key is a [TypeError]. *)
Definition hashable (v : value) : bool :=
  match v with VList _ => false | _ => true end.

(** [k1 == k2] on hashable values, as a dictionary compares its keys. *)
Definition key_eqb (k1 k2 : value) : bool :=
  match k1, k2 with
  | VNone, VNone => true
  | VStr s1, VStr s2 => s1 =? s2
  | (VInt _ | VBool _), (VInt _ | VBool _) => (int_of k1 =? int_of k2)%Z
  | _, _ => false
  end.

(** The exceptions raised inside [process_thought], with [str(e)]. *)
Inductive exception : Type :=
| ValueError (message : string)
| TypeError (message : string).

Definition str_of (e : exception) : string :=
  match e with
  | ValueError message => message
  | TypeError message => message
  end.

(** The two attributes of the server object; [branches] keeps its keys
    in insertion order. *)
Record server : Type := {
  thought_history : list dict;
  branches : list (value * list dict)
}.

(** [SequentialThinkingServer()] *)
Definition init : server := {| thought_history := []; branches := [] |}.

Definition validate_thought_data (data : dict) : exception + dict :=
  if negb (is_str (get data "thought"))
  then inl (ValueError "Invalid thought: must be a string")
  else if negb (is_int (get data "thoughtNumber"))
  then inl (ValueError "Invalid thoughtNumber: must be a number")
  else if negb (is_int (get data "totalThoughts"))
  then inl (ValueError "Invalid totalThoughts: must be a number")
  else if negb (is_bool (get data "nextThoughtNeeded"))
  then inl (ValueError "Invalid nextThoughtNeeded: must be a boolean")
  else inr [ ("thought", get data "thought");
             ("thoughtNumber", get data "thoughtNumber");
             ("totalThoughts", get data "totalThoughts");
             ("nextThoughtNeeded", get data "nextThoughtNeeded");
             ("isRevision", get data "isRevision");
             ("revisesThought", get data "revisesThought");
             ("branchFromThought", get data "branchFromThought");
             ("branchId", get data "branchId");
             ("needsMoreThoughts", get data "needsMoreThoughts") ].

(** [branch_id not in self.branches] *)
Fixpoint has_key (bs : list (value * list dict)) (k : value) : bool :=
  match bs with
  | [] => false
  | (k', _) :: bs' => key_eqb k' k || has_key bs' k
  end.

(** [self.branches[branch_id].append(t)] on a key that is there *)
Fixpoint append_at (bs : list (value * list dict)) (k : value) (t : dict)
  : list (value * list dict) :=
  match bs with
  | [] => []
  | (k', ts) :: bs' =>
      if key_eqb k' k then (k', (ts ++ [t])%list) :: bs'
      else (k', ts) :: append_at bs' k t
  end.

(** The response of the [except Exception] handler. *)
Definition failed (e : exception) : dict :=
  [ ("error", VStr (str_of e)); ("status", VStr "failed") ].

(** [process_thought(input_data)]: the response, and the server after the
    call.  [format_thought] and the [print] to [sys.stderr] read the
    validated dictionary only and are left out. *)
Definition process_thought (self : server) (input_data : dict) : dict * server :=
  match validate_thought_data input_data with
  | inl e => (failed e, self)
  | inr validated_input =>
      let validated_input :=
        if (int_of (get validated_input "thoughtNumber")
            >? int_of (get validated_input "totalThoughts"))%Z
        then set validated_input "totalThoughts" (get validated_input "thoughtNumber")
        else validated_input in
      let history := (thought_history self ++ [validated_input])%list in
      let respond (bs : list (value * list dict)) : dict * server :=
        ([ ("thoughtNumber", get validated_input "thoughtNumber");
           ("totalThoughts", get validated_input "totalThoughts");
           ("nextThoughtNeeded", get validated_input "nextThoughtNeeded");
           ("branches", VList (map fst bs));
           ("thoughtHistoryLength", VInt (Z.of_nat (List.length history))) ],
         {| thought_history := history; branches := bs |}) in
      if truthy (get validated_input "branchFromThought")
         && truthy (get validated_input "branchId")
      then
        let branch_id := get validated_input "branchId" in
        if negb (hashable branch_id)
        then (failed (TypeError "unhashable type: 'list'"),
              {| thought_history := history; branches := branches self |})
        else
          let bs :=
            if negb (has_key (branches self) branch_id)
            then (branches self ++ [(branch_id, [])])%list
            else branches self in
          respond (append_at bs branch_id validated_input)
      else respond (branches self)
  end.

(** An input passes validation. *)
Definition valid (input_data : dict) : bool :=
  is_str (get input_data "thought")
  && is_int (get input_data "thoughtNumber")
  && is_int (get input_data "totalThoughts")
  && is_bool (get input_data "nextThoughtNeeded").

End Thinking.

(* ------------------------------------------------------------------ *)
(** ** The other tools over the sandbox: [list_directory],
       [list_allowed_directories] *)

Module Tools.
Import PyStr PosixPath OS Sandbox.

Definition newline_char : ascii := ascii_of_nat 10.

(** The line [list_directory] formats for one entry. *)
Definition entry_line (P : process) (valid_path entry : string) : string :=
  let entry_path := join valid_path entry in
  let is_dir := isdir (fs P) (cwd P) entry_path in
  (if is_dir then "[DIR]" else "[FILE]") ++ " " ++ entry.

(** [list_directory(path)] *)
Definition list_directory (M : messages) (P : process) (path : string)
  : reply string :=
  match validate_path M P path with
  | ValueError message => Raises (ValueErr message)
  | Ok valid_path =>
      match listdir (fs P) (cwd P) valid_path with
      | None => Raises OSError
      | Some entries =>
          Returns (String.concat newline (map (entry_line P valid_path) entries))
      end
  end.

(** [list_allowed_directories()], with the [os.linesep] of POSIX. *)
Definition list_allowed_directories (P : process) : string :=
  "Allowed directories:" ++ newline ++ String.concat newline (allowed_directories P).

(** A string without the character [c]. *)
Fixpoint lacks (c : ascii) (s : string) : bool :=
  match s with
  | EmptyString => true
  | String a s' => negb (Ascii.eqb a c) && lacks c s'
  end.

(** The node [build_tree(current_path)] makes for [entry], with
    [depth] nested calls left for its children. *)
Definition node_for (M : messages) (P : process) (depth : nat)
  (current_path entry : string) (node : json) : Prop :=
  (isdir (fs P) (cwd P) (join current_path entry) = true
   /\ exists children,
        build_tree M P depth (join current_path entry) = Returns children
        /\ node = JObject [("name", JString entry);
                           ("type", JString "directory");
                           ("children", JArray children)])
  \/ (isdir (fs P) (cwd P) (join current_path entry) = false
      /\ node = JObject [("name", JString entry); ("type", JString "file")]).

End Tools.

(* ------------------------------------------------------------------ *)
(** ** The tool [sequentialthinking] and the calls of one process *)

Module ThinkingTool.
Import Thinking.

(** [if v is not None: input_data[key] = v] *)
Definition set_if_given (input_data : dict) (key : string) (v : value) : dict :=
  match v with
  | VNone => input_data
  | _ => set input_data key v
  end.

(** [sequentialthinking(...)] on the server object [self] (the module's
    [thinking_server]): the response handed to [json.dumps], and the
    server after the call.  The arguments are Python values; the
    annotations of the parameters are not checked by the function. *)
Definition sequentialthinking (self : server)
  (thought thoughtNumber totalThoughts nextThoughtNeeded
   isRevision revisesThought branchFromThought branchId needsMoreThoughts : value)
  : dict * server :=
  let input_data := [ ("thought", thought);
                      ("thoughtNumber", thoughtNumber);
                      ("totalThoughts", totalThoughts);
                      ("nextThoughtNeeded", nextThoughtNeeded) ] in
  let input_data := set_if_given input_data "isRevision" isRevision in
  let input_data := set_if_given input_data "revisesThought" revisesThought in
  let input_data := set_if_given input_data "branchFromThought" branchFromThought in
  let input_data := set_if_given input_data "branchId" branchId in
  let input_data := set_if_given input_data "needsMoreThoughts" needsMoreThoughts in
  process_thought self input_data.

(** The server after the calls [process_thought(d)] for [d] in [inputs],
    in order. *)
Definition run_thoughts (self : server) (inputs : list dict) : server :=
  fold_left (fun s input_data => snd (process_thought s input_data)) inputs self.

(** [Optional[T]]: [None] or a [T]. *)
Definition optional (is_t : value -> bool) (v : value) : bool :=
  match v with
  | VNone => true
  | _ => is_t v
  end.

(** [branches.get(k, [])] *)
Fixpoint branch_at (bs : list (value * list dict)) (k : value) : list dict :=
  match bs with
  | [] => []
  | (k', ts) :: bs' => if key_eqb k' k then ts else branch_at bs' k
  end.

(** The dictionary a valid input is recorded as. *)
Definition thought_of (input_data : dict) : dict :=
  let tn := get input_data "thoughtNumber" in
  let tt := get input_data "totalThoughts" in
  [ ("thought", get input_data "thought");
    ("thoughtNumber", tn);
    ("totalThoughts", if (int_of tn >? int_of tt)%Z then tn else tt);
    ("nextThoughtNeeded", get input_data "nextThoughtNeeded");
    ("isRevision", get input_data "isRevision");
    ("revisesThought", get input_data "revisesThought");
    ("branchFromThought", get input_data "branchFromThought");
    ("branchId", get input_data "branchId");
    ("needsMoreThoughts", get input_data "needsMoreThoughts") ].

(** The branches after [t] is filed under [branch_id]. *)
Definition track (bs : list (value * list dict)) (branch_id : value) (t : dict)
  : list (value * list dict) :=
  append_at (if negb (has_key bs branch_id)
             then (bs ++ [(branch_id, [])])%list else bs) branch_id t.

(** The response of a call that reaches its [return]. *)
Definition response (t : dict) (bs : list (value * list dict))
  (history : list dict) : dict :=
  [ ("thoughtNumber", get t "thoughtNumber");
    ("totalThoughts", get t "totalThoughts");
    ("nextThoughtNeeded", get t "nextThoughtNeeded");
    ("branches", VList (map fst bs));
    ("thoughtHistoryLength", VInt (Z.of_nat (List.length history))) ].

(** No key is equal to a later one. *)
Fixpoint distinct_keys (ks : list value) : Prop :=
  match ks with
  | [] => True
  | k :: ks' => Forall (fun k' => key_eqb k k' = false) ks' /\ distinct_keys ks'
  end.

(** A recorded thought: validation returns it unchanged, and its
    [thoughtNumber] is at most its [totalThoughts]. *)
Definition stored_ok (t : dict) : Prop :=
  validate_thought_data t = inr t
  /\ (int_of (get t "thoughtNumber") <= int_of (get t "totalThoughts"))%Z.

(** A branch of a server with the history [history]: its key is
    hashable and truthy, it holds a thought, and each of its thoughts is
    in the history and carries the key as [branchId]. *)
Definition branch_ok (history : list dict) (k : value) (ts : list dict) : Prop :=
  hashable k = true
  /\ truthy k = true
  /\ ts <> []
  /\ Forall (fun t => In t history
                      /\ truthy (get t "branchFromThought") = true
                      /\ key_eqb k (get t "branchId") = true) ts.

Definition consistent (s : server) : Prop :=
  Forall stored_ok (thought_history s)
  /\ distinct_keys (map fst (branches s))
  /\ Forall (fun b => branch_ok (thought_history s) (fst b) (snd b)) (branches s).

End ThinkingTool.

(* ------------------------------------------------------------------ *)
(** ** File systems without symbolic links *)

Module LinkFree.
Import OS.

(** No node of the file system is a symbolic link. *)
Definition no_links (fs : filesystem) : bool :=
  forallb (fun entry => match snd entry with
                        | Link _ => false
                        | _ => true
                        end) fs.

End LinkFree.

(* ------------------------------------------------------------------ *)
(** ** The ways [os.walk] takes under [search_files] *)

Module Followed.
Import PyStr PosixPath OS Sandbox.

(** The walk from [top] goes down [ds]: each step is a listed entry of
    the directory before it, a directory and no link, and no exclude
    pattern matches it when the directory before it passes
    [validate_path]. *)
Fixpoint follows (M : messages) (P : process) (root_path : string)
  (exclude_patterns : list string) (top : string) (ds : list string) : Prop :=
  match ds with
  | [] => True
  | d :: ds' =>
      (exists entries,
          listdir (fs P) (cwd P) top = Some entries /\ In d entries)
      /\ isdir (fs P) (cwd P) (join top d) = true
      /\ islink (fs P) (cwd P) (join top d) = false
      /\ (is_ok (validate_path M P top) = true ->
          excluded P root_path exclude_patterns top d = Some false)
      /\ follows M P root_path exclude_patterns (join top d) ds'
  end.

End Followed.

(* ------------------------------------------------------------------ *)
(** ** The vocabulary of the specification, over the embedding *)

Module Spec.
Import PyStr PosixPath OS Sandbox.

(** Containment as the specification words it: the path equals the root,
    or starts with the root followed by a path separator. *)
Definition spec_contained (p root : string) : bool :=
  (p =? root) || startswith p (root ++ "/").

Definition spec_contained_in_some (p : string) (roots : list string) : bool :=
  existsb (spec_contained p) roots.

(** The literal path of a request: absolute and normalized. *)
Definition literal (P : process) (requested_path : string) : string :=
  abspath (cwd P) (expand_home P requested_path).

(** The canonical form of a request: the real path of its literal path. *)
Definition canonical (P : process) (requested_path : string) : string :=
  realpath_of (fs P) (cwd P) (literal P requested_path).

(** [d.get(key)] on a dictionary of [build_tree]. *)
Fixpoint field (key : string) (fields : list (string * json)) : option json :=
  match fields with
  | [] => None
  | (k, v) :: fields' => if k =? key then Some v else field key fields'
  end.

Definition has_type (t : string) (fields : list (string * json)) : bool :=
  match field "type" fields with
  | Some (JString s) => s =? t
  | _ => false
  end.

Definition has_children (fields : list (string * json)) : bool :=
  match field "children" fields with
  | Some (JArray _) => true
  | _ => false
  end.

Definition lacks_children (fields : list (string * json)) : bool :=
  match field "children" fields with
  | None => true
  | Some _ => false
  end.

(** A tree node and all the nodes below it: a directory node has a
    [children] list, a file node has no [children] key. *)
Fixpoint well_shaped (node : json) : bool :=
  match node with
  | JObject fields =>
      ((has_type "directory" fields && has_children fields)
       || (has_type "file" fields && lacks_children fields))
      && forallb (fun kv =>
                    match snd kv with
                    | JArray items => forallb well_shaped items
                    | _ => true
                    end) fields
  | _ => false
  end.

(** The [name] of a node. *)
Definition node_name (node : json) : option string :=
  match node with
  | JObject fields =>
      match field "name" fields with
      | Some (JString s) => Some s
      | _ => None
      end
  | _ => None
  end.

(** The entries of [current_path] that pass [validate_path]. *)
Definition passing (M : messages) (P : process) (current_path : string)
  (entries : list string) : list string :=
  filter (fun entry => is_ok (validate_path M P (join current_path entry))) entries.

(** Two results of [validate_path] that differ at most in the text of
    the error. *)
Definition same_outcome (c1 c2 : checked) : Prop :=
  match c1, c2 with
  | Ok path1, Ok path2 => path1 = path2
  | ValueError _, ValueError _ => True
  | _, _ => False
  end.

End Spec.

(* ------------------------------------------------------------------ *)
(** ** Small file systems for the examples *)

Module Scenario.
Import OS Sandbox.

(** One root, [/allowed], with links that leave it, and a sibling
    directory whose name starts with the name of the root. *)
Definition jail_disk : filesystem :=
  [ ("/", Directory ["allowed"; "allowedother"; "etc"; "tmp"]);
    ("/allowed", Directory ["real"; "alias"; "link"; "sib"]);
    ("/allowed/real", Directory ["a.txt"]);
    ("/allowed/real/a.txt", Reg);
    ("/allowed/alias", Link "real");
    ("/allowed/link", Link "/etc");
    ("/allowed/sib", Link "/allowedother");
    ("/allowedother", Directory ["secret"]);
    ("/allowedother/secret", Reg);
    ("/etc", Directory ["passwd"]);
    ("/etc/passwd", Reg);
    ("/tmp", Directory ["in"]);
    ("/tmp/in", Link "/allowed/real") ].

Definition jail : process :=
  {| argv := ["/allowed"]; home := "/home/user"; cwd := "/"; fs := jail_disk |}.

(** The search scenario of the specification, with one more file. *)
Definition sandbox_disk : filesystem :=
  [ ("/", Directory ["sandbox"]);
    ("/sandbox", Directory ["sub"; "foo2.txt"; "notes"]);
    ("/sandbox/sub", Directory ["foo.txt"]);
    ("/sandbox/sub/foo.txt", Reg);
    ("/sandbox/foo2.txt", Reg);
    ("/sandbox/notes", Directory []) ].

Definition sandbox : process :=
  {| argv := ["/sandbox"]; home := "/home/user"; cwd := "/"; fs := sandbox_disk |}.

(** A walk that starts above the only allowed root. *)
Definition nested_disk : filesystem :=
  [ ("/", Directory ["a"]);
    ("/a", Directory ["R"]);
    ("/a/R", Directory ["sub"]);
    ("/a/R/sub", Directory ["foo.txt"]);
    ("/a/R/sub/foo.txt", Reg) ].

Definition nested : process :=
  {| argv := ["/a/R/sub"]; home := "/home/user"; cwd := "/"; fs := nested_disk |}.

End Scenario.

(* ------------------------------------------------------------------ *)
(** ** The way from the starting root to a search result *)

Module Way.
Import PyStr PosixPath OS Sandbox.

(** The directory reached from [top] through the subdirectories [ds]. *)
Definition descend (top : string) (ds : list string) : string :=
  fold_left join ds top.

(** No step of the way from [top] down [ds] leaves a directory that
    passed [validate_path] for a subdirectory whose path relative to
    the starting root starts with an exclude pattern. *)
Fixpoint unpruned (M : messages) (P : process) (root_path : string)
  (exclude_patterns : list string) (top : string) (ds : list string) : Prop :=
  match ds with
  | [] => True
  | d :: ds' =>
      (is_ok (validate_path M P top) = true ->
       excluded P root_path exclude_patterns top d = Some false)
      /\ unpruned M P root_path exclude_patterns (join top d) ds'
  end.

(** [p] is an entry of a directory that passed [validate_path] and that
    the walk from [top] reaches on an unpruned way. *)
Definition reached (M : messages) (P : process) (root_path : string)
  (exclude_patterns : list string) (top p : string) : Prop :=
  exists (ds : list string) (name : string),
    p = join (descend top ds) name
    /\ unpruned M P root_path exclude_patterns top ds
    /\ is_ok (validate_path M P (descend top ds)) = true.

(** [p] was appended by the entry loop of [search_files]: it is an entry
    of a directory that passed, it passed itself, and its name holds the
    pattern, case aside. *)
Definition checked_entry (M : messages) (P : process) (pattern p : string) : Prop :=
  exists root name,
    p = join root name
    /\ is_ok (validate_path M P root) = true
    /\ is_ok (validate_path M P p) = true
    /\ contains (lower pattern) (lower name) = true.

End Way.

(* ------------------------------------------------------------------ *)
(** * Checks of the embedding on small inputs *)

Module PathExamples.
Import PyStr PosixPath.

Example split_abs : split sep "/a//b" = [""; "a"; ""; "b"].
Proof. reflexivity. Qed.

Example normpath_dots : normpath "/a/./b/../c/" = "/a/c".
Proof. reflexivity. Qed.

Example normpath_two_slashes : normpath "//a" = "//a".
Proof. reflexivity. Qed.

Example normpath_up : normpath "a/../../b" = "../b".
Proof. reflexivity. Qed.

Example normpath_root_up : normpath "/.." = "/".
Proof. reflexivity. Qed.

Example join_absolute_wins : join "/home/u" "/docs" = "/docs".
Proof. reflexivity. Qed.

Example dirname_file : dirname "/a/b/c.txt" = "/a/b".
Proof. reflexivity. Qed.

Example dirname_top : dirname "/c.txt" = "/".
Proof. reflexivity. Qed.

Example relpath_sub : relpath "/" "/sandbox/sub/x" "/sandbox" = Some "sub/x".
Proof. reflexivity. Qed.

Example relpath_self : relpath "/" "/sandbox" "/sandbox" = Some ".".
Proof. reflexivity. Qed.

Example lower_mixed : lower "FooBar.TXT" = "foobar.txt".
Proof. reflexivity. Qed.

Example contains_mid : contains "oo" "foo2.txt" = true.
Proof. reflexivity. Qed.

End PathExamples.

Module OSExamples.
Import PyStr PosixPath OS.

Definition disk : filesystem :=
  [ ("/", Directory ["sandbox"; "etc"]);
    ("/etc", Directory ["passwd"]);
    ("/etc/passwd", Reg);
    ("/sandbox", Directory ["a.txt"; "sub"; "link"; "up"; "loop"; "dangling"]);
    ("/sandbox/a.txt", Reg);
    ("/sandbox/sub", Directory ["foo.txt"]);
    ("/sandbox/sub/foo.txt", Reg);
    ("/sandbox/link", Link "/etc");
    ("/sandbox/up", Link "../etc/passwd");
    ("/sandbox/loop", Link "loop");
    ("/sandbox/dangling", Link "nowhere") ].

Example realpath_plain : realpath_of disk "/" "/sandbox/sub/foo.txt" = "/sandbox/sub/foo.txt".
Proof. reflexivity. Qed.

Example realpath_link : realpath_of disk "/" "/sandbox/link/passwd" = "/etc/passwd".
Proof. reflexivity. Qed.

Example realpath_relative_target : realpath_of disk "/" "/sandbox/up" = "/etc/passwd".
Proof. reflexivity. Qed.

Example realpath_missing : realpath_of disk "/" "/sandbox/nodir/new.txt" = "/sandbox/nodir/new.txt".
Proof. reflexivity. Qed.

Example realpath_loop : realpath_of disk "/" "/sandbox/loop/x" = "/sandbox/loop/x".
Proof. reflexivity. Qed.

Example realpath_dangling : realpath_of disk "/" "/sandbox/dangling" = "/sandbox/nowhere".
Proof. reflexivity. Qed.

Example isdir_through_link : isdir disk "/" "/sandbox/link" = true.
Proof. reflexivity. Qed.

Example islink_link : islink disk "/" "/sandbox/link" = true.
Proof. reflexivity. Qed.

Example listdir_through_link : listdir disk "/" "/sandbox/link" = Some ["passwd"].
Proof. reflexivity. Qed.

Example scan_sandbox :
  scan disk "/" "/sandbox" = Some (["sub"; "link"], ["a.txt"; "up"; "loop"; "dangling"]).
Proof. reflexivity. Qed.

End OSExamples.

(* ------------------------------------------------------------------ *)
(** * Facts about the embedding *)

(** Closed goals are settled by running the definitions. *)
Ltac run :=
  vm_compute;
  first [ reflexivity | discriminate | now left | now (eexists; reflexivity) ].

Ltac runs := repeat (match goal with |- _ /\ _ => split end); run.

(* ------------------------------------------------------------------ *)
(** * [normpath] is idempotent *)

Module NormpathFacts.
Import PyStr PosixPath.

Lemma startswith_cons (a b : ascii) (s p : string) :
  startswith (String a s) (String b p) = Ascii.eqb b a && startswith s p.
Proof.
  unfold startswith; simpl.
  destruct (ascii_dec b a) as [->|n].
  - now rewrite Ascii.eqb_refl.
  - apply Ascii.eqb_neq in n; now rewrite n.
Qed.

Lemma startswith_nil (s : string) : startswith s "" = true.
Proof. unfold startswith; destruct s; reflexivity. Qed.

Lemma startswith_sep (s : string) :
  startswith s "/" = match s with
                     | String a _ => Ascii.eqb a sep
                     | EmptyString => false
                     end.
Proof.
  destruct s as [|a s]; [reflexivity|].
  change "/" with (String sep "").
  now rewrite startswith_cons, startswith_nil, andb_true_r, Ascii.eqb_sym.
Qed.

Lemma split_nonempty (s : string) : exists h t, split sep s = h :: t.
Proof.
  induction s as [|a s [h [t IH]]]; simpl; [now exists "", []|].
  destruct (Ascii.eqb a sep); [now exists "", (split sep s)|].
  rewrite IH; now exists (String a h), t.
Qed.

Lemma split_no_sep (s : string) : Forall (fun c => no_sep c = true) (split sep s).
Proof.
  induction s as [|a s IH]; simpl; [now repeat constructor|].
  destruct (Ascii.eqb a sep) eqn:E; [now constructor|].
  destruct (split sep s) as [|h t]; [repeat constructor; simpl; now rewrite E|].
  inversion IH as [|? ? Hh Ht]; subst.
  constructor; [simpl; now rewrite E, Hh | exact Ht].
Qed.

Lemma split_comp (c : string) : no_sep c = true -> split sep c = [c].
Proof.
  induction c as [|a c IH]; simpl; [reflexivity|].
  intros H; apply andb_true_iff in H; destruct H as [Ha Hc].
  apply negb_true_iff in Ha; rewrite Ha, (IH Hc); reflexivity.
Qed.

Lemma split_comp_sep (c s : string) :
  no_sep c = true -> split sep (c ++ String sep s) = c :: split sep s.
Proof.
  induction c as [|a c IH]; simpl.
  - intros _; reflexivity.
  - intros H; apply andb_true_iff in H; destruct H as [Ha Hc].
    apply negb_true_iff in Ha; rewrite Ha, (IH Hc); reflexivity.
Qed.

Lemma split_concat (comps : list string) :
  comps <> [] ->
  Forall (fun c => no_sep c = true) comps ->
  split sep (String.concat "/" comps) = comps.
Proof.
  induction comps as [|c comps IH]; [congruence|]; intros _ H.
  inversion H as [|? ? Hc Hr]; subst.
  destruct comps as [|c' comps].
  - simpl; now apply split_comp.
  - change (String.concat "/" (c :: c' :: comps))
      with (c ++ String sep (String.concat "/" (c' :: comps))).
    rewrite (split_comp_sep _ _ Hc), IH; [reflexivity | discriminate | exact Hr].
Qed.

(** The first character of the joined components is that of the first. *)
Lemma concat_head (c : string) (comps : list string) :
  c <> "" -> no_sep c = true ->
  exists a rest, String.concat "/" (c :: comps) = String a rest
                 /\ Ascii.eqb a sep = false.
Proof.
  destruct c as [|a c]; [congruence|]; intros _ H.
  simpl in H; apply andb_true_iff in H; destruct H as [Ha _].
  apply negb_true_iff in Ha.
  destruct comps as [|c' comps]; simpl;
    [now exists a, c | now exists a, (c ++ String sep (String.concat "/" (c' :: comps)))].
Qed.

Section Clean.
Variable i : nat.

Lemma step_clean (stack : list string) (comp : string) :
  no_sep comp = true -> clean i stack -> clean i (normpath_step i stack comp).
Proof.
  intros Hn [Hc Hd]; unfold normpath_step.
  destruct ((comp =? "") || (comp =? ".")) eqn:E1; [now split|].
  apply orb_false_iff in E1; destruct E1 as [E1 E2].
  apply String.eqb_neq in E1; apply String.eqb_neq in E2.
  assert (Hcomp : is_comp comp) by (repeat split; assumption).
  destruct (comp =? "..") eqn:E3; simpl.
  - apply String.eqb_eq in E3; subst comp.
    destruct stack as [|l below].
    + destruct i as [|i']; simpl.
      * split; [now repeat constructor | simpl; split; [intros _; constructor | exact I]].
      * now split.
    + destruct i as [|i']; simpl.
      * try rewrite andb_false_r; simpl.
        destruct (l =? "..") eqn:El.
        -- apply String.eqb_eq in El; subst l.
           split; [now constructor|].
           simpl; split; [|exact Hd].
           intros _; constructor; [reflexivity|].
           simpl in Hd; now apply (proj1 Hd).
        -- inversion Hc; subst; split; [assumption | simpl in Hd; tauto].
      * destruct (l =? "..") eqn:El.
        -- apply String.eqb_eq in El; subst l.
           inversion Hd; subst; congruence.
        -- inversion Hc; inversion Hd; subst; now split.
  - apply String.eqb_neq in E3.
    split; [now constructor|].
    destruct i as [|i']; simpl.
    + split; [congruence | exact Hd].
    + now constructor.
Qed.

Lemma fold_clean (comps : list string) :
  Forall (fun c => no_sep c = true) comps ->
  forall stack, clean i stack ->
                clean i (fold_left (normpath_step i) comps stack).
Proof.
  induction comps as [|c comps IH]; intros H stack Hs; simpl; [exact Hs|].
  inversion H; subst; apply IH; [assumption|].
  now apply step_clean.
Qed.

(** A clean component is pushed as it is. *)
Lemma step_push (below : list string) (c : string) :
  clean i (c :: below) -> normpath_step i below c = c :: below.
Proof.
  intros [Hc Hd]; inversion Hc as [|? ? [H1 [H2 H3]] Hb]; subst.
  unfold normpath_step.
  apply String.eqb_neq in H1; apply String.eqb_neq in H2.
  rewrite H1, H2; simpl.
  destruct (c =? "..") eqn:E; simpl; [|reflexivity].
  apply String.eqb_eq in E; subst c.
  destruct i as [|i']; simpl.
  - simpl in Hd; destruct Hd as [Hd _]; specialize (Hd eq_refl).
    destruct below as [|l below]; [reflexivity|].
    inversion Hd; subst; reflexivity.
  - inversion Hd; subst; congruence.
Qed.

Lemma clean_tail (c : string) (below : list string) :
  clean i (c :: below) -> clean i below.
Proof.
  intros [Hc Hd]; inversion Hc; subst; split; [assumption|].
  destruct i; [simpl in Hd; tauto | now inversion Hd].
Qed.

(** Running the loop again over a clean stack rebuilds it. *)
Lemma refold (stack : list string) :
  clean i stack -> fold_left (normpath_step i) (rev stack) [] = stack.
Proof.
  induction stack as [|c below IH]; intros H; simpl; [reflexivity|].
  rewrite fold_left_app; simpl.
  rewrite (IH (clean_tail _ _ H)); now apply step_push.
Qed.

Lemma skip_empty (comps stack : list string) :
  fold_left (normpath_step i) ("" :: comps) stack
  = fold_left (normpath_step i) comps stack.
Proof. reflexivity. Qed.

End Clean.

Lemma clean_nil (i : nat) : clean i [].
Proof. split; [constructor | destruct i; [exact I | constructor]]. Qed.

Lemma rev_clean_comps (i : nat) (stack : list string) :
  clean i stack -> Forall (fun c => no_sep c = true) (rev stack).
Proof.
  intros [Hc _]; apply Forall_rev.
  eapply Forall_impl; [|exact Hc]; now intros c [_ [_ H]].
Qed.

Lemma concat_plain_start (i : nat) (stack : list string) :
  clean i stack -> plain_start (String.concat "/" (rev stack)).
Proof.
  intros [Hc _]; destruct (rev stack) as [|c comps] eqn:E; [now left|right].
  assert (Hin : In c stack) by (apply in_rev; rewrite E; now left).
  rewrite Forall_forall in Hc; destruct (Hc c Hin) as [H1 [_ H3]].
  destruct (concat_head c comps H1 H3) as [a [rest [Ha Hs]]].
  exists a, rest; split; [exact Ha | now rewrite Ascii.eqb_sym].
Qed.

Lemma initial_slashes_built (i : nat) (t : string) :
  (i <= 2)%nat -> plain_start t -> slashes i ++ t <> "" ->
  initial_slashes (slashes i ++ t) = i.
Proof.
  intros Hi Ht Hb; unfold initial_slashes.
  destruct i as [|[|[|i']]]; [| | |lia]; simpl slashes.
  - simpl append in *.
    destruct Ht as [->|[a [rest [-> Hs]]]]; [congruence|].
    change "/" with (String sep ""); now rewrite startswith_cons, Hs.
  - change ("/" ++ t) with (String sep t).
    change "///" with (String sep (String sep (String sep ""))).
    change "//" with (String sep (String sep "")).
    change "/" with (String sep "").
    rewrite !startswith_cons, !Ascii.eqb_refl, !startswith_nil; simpl.
    destruct Ht as [->|[a [rest [-> Hs]]]]; [reflexivity|].
    now rewrite startswith_cons, Hs.
  - change ("//" ++ t) with (String sep (String sep t)).
    change "///" with (String sep (String sep (String sep ""))).
    change "//" with (String sep (String sep "")).
    change "/" with (String sep "").
    rewrite !startswith_cons, !Ascii.eqb_refl, !startswith_nil; simpl.
    destruct Ht as [->|[a [rest [-> Hs]]]]; [reflexivity|].
    now rewrite startswith_cons, Hs.
Qed.

(** The leading slashes split off as empty components, which the loop
    skips. *)
Lemma fold_split_built (i : nat) (t : string) :
  (i <= 2)%nat ->
  fold_left (normpath_step i) (split sep (slashes i ++ t)) []
  = fold_left (normpath_step i) (split sep t) [].
Proof.
  intros Hi; destruct i as [|[|[|i']]]; [| | |lia]; reflexivity.
Qed.

Lemma fold_split_concat (i : nat) (stack : list string) :
  clean i stack ->
  fold_left (normpath_step i) (split sep (String.concat "/" (rev stack))) []
  = stack.
Proof.
  intros Hc; pose proof (refold i stack Hc) as Hr.
  pose proof (rev_clean_comps i stack Hc) as Hn.
  destruct (rev stack) as [|c comps] eqn:E.
  - exact Hr.
  - rewrite split_concat; [exact Hr | discriminate | exact Hn].
Qed.

(** The text [normpath] builds from a clean stack is a fixed point. *)
Lemma normpath_built (i : nat) (stack : list string) :
  (i <= 2)%nat ->
  clean i stack ->
  slashes i ++ String.concat "/" (rev stack) <> "" ->
  normpath (slashes i ++ String.concat "/" (rev stack))
  = slashes i ++ String.concat "/" (rev stack).
Proof.
  intros Hi Hc Hb; unfold normpath.
  rewrite (initial_slashes_built i _ Hi (concat_plain_start i stack Hc) Hb).
  rewrite (fold_split_built i _ Hi), (fold_split_concat i stack Hc).
  apply String.eqb_neq in Hb; now rewrite Hb.
Qed.

Lemma initial_slashes_le (path : string) : (initial_slashes path <= 2)%nat.
Proof.
  unfold initial_slashes.
  destruct (startswith path "/"); [|lia].
  destruct (startswith path "//" && negb (startswith path "///")); lia.
Qed.

(** What [normpath] returns: [.], or slashes and clean components. *)
Lemma normpath_cases (path : string) :
  normpath path = "."
  \/ exists i stack,
       (i <= 2)%nat /\ clean i stack
       /\ slashes i ++ String.concat "/" (rev stack) <> ""
       /\ normpath path = slashes i ++ String.concat "/" (rev stack).
Proof.
  unfold normpath.
  destruct (path =? ""); [now left|].
  destruct (_ =? "") eqn:E; [now left|right].
  apply String.eqb_neq in E.
  exists (initial_slashes path),
    (fold_left (normpath_step (initial_slashes path)) (split sep path) []).
  repeat split.
  - apply initial_slashes_le.
  - apply fold_clean; [apply split_no_sep | apply clean_nil].
  - apply fold_clean; [apply split_no_sep | apply clean_nil].
  - exact E.
Qed.

(** [normpath(normpath(path)) == normpath(path)] *)
Theorem normpath_idempotent (path : string) :
  normpath (normpath path) = normpath path.
Proof.
  destruct (normpath_cases path) as [->|[i [stack [Hi [Hc [Hb ->]]]]]].
  - reflexivity.
  - now apply normpath_built.
Qed.

Lemma abspath_normalized (cwd path : string) :
  normpath (abspath cwd path) = abspath cwd path.
Proof. apply normpath_idempotent. Qed.

End NormpathFacts.

(* ------------------------------------------------------------------ *)
(** * [realpath]: the bound on the nesting is never reached *)

Module RealpathFuel.
Import PyStr PosixPath OS.

Section Fuel.
Variable fs : filesystem.
Variable cwd : string.

Lemma node_at_key (key : string) (n : ftype) :
  node_at fs key = Some n -> In key (map fst fs).
Proof.
  induction fs as [|[k m] l IH]; simpl; [discriminate|].
  destruct (k =? key) eqn:E.
  - intros _; left; now apply String.eqb_eq.
  - intros H; right; now apply IH.
Qed.

Lemma seen_get_none (seen : seen_t) (k : string) :
  seen_get seen k = None -> ~ In k (map fst seen).
Proof.
  induction seen as [|[k' v] seen IH]; simpl; [tauto|].
  destruct (k' =? k) eqn:E; [discriminate|].
  intros H [H'|H']; [|now apply IH].
  subst; now rewrite String.eqb_refl in E.
Qed.

Lemma filter_length_le {A : Type} (f g : A -> bool) (l : list A) :
  (forall x, In x l -> g x = true -> f x = true) ->
  (List.length (filter g l) <= List.length (filter f l))%nat.
Proof.
  induction l as [|a l IH]; intros H; simpl; [lia|].
  assert (IH' : (List.length (filter g l) <= List.length (filter f l))%nat).
  { apply IH; intros x Hx; apply H; now right. }
  destruct (g a) eqn:Hg.
  - rewrite (H a (or_introl eq_refl) Hg); simpl; lia.
  - destruct (f a); simpl; lia.
Qed.

Lemma filter_length_lt {A : Type} (f g : A -> bool) (l : list A) (x : A) :
  (forall y, In y l -> g y = true -> f y = true) ->
  In x l -> f x = true -> g x = false ->
  (List.length (filter g l) < List.length (filter f l))%nat.
Proof.
  induction l as [|a l IH]; intros H Hx Hf Hg; simpl; [destruct Hx|].
  assert (Hle : (List.length (filter g l) <= List.length (filter f l))%nat).
  { apply filter_length_le; intros y Hy; apply H; now right. }
  destruct Hx as [->|Hx].
  - rewrite Hf, Hg; simpl; lia.
  - assert (IH' : (List.length (filter g l) < List.length (filter f l))%nat).
    { apply IH; try assumption; intros y Hy; apply H; now right. }
    destruct (g a) eqn:Hga.
    + rewrite (H a (or_introl eq_refl) Hga); simpl; lia.
    + destruct (f a); simpl; lia.
Qed.

Lemma reaches_key_mono (absolute : bool) (seen seen' : seen_t) (key : string) :
  incl (map fst seen) (map fst seen') ->
  reaches_key cwd absolute seen key = true ->
  reaches_key cwd absolute seen' key = true.
Proof.
  unfold reaches_key; intros Hi H.
  apply existsb_exists in H; destruct H as [k [Hk H]].
  apply existsb_exists; exists k; split; [now apply Hi | exact H].
Qed.

(** A larger [seen] leaves fewer link paths to enter. *)
Lemma pending_mono (seen seen' : seen_t) :
  incl (map fst seen) (map fst seen') ->
  (pending fs cwd seen' <= pending fs cwd seen)%nat.
Proof.
  intros Hi; unfold pending.
  assert (H : forall absolute,
             (List.length (filter (fun key => negb (reaches_key cwd absolute seen' key))
                             (map fst fs))
              <= List.length (filter (fun key => negb (reaches_key cwd absolute seen key))
                                (map fst fs)))%nat).
  { intros absolute; apply filter_length_le; intros key _ H.
    apply negb_true_iff in H; apply negb_true_iff.
    destruct (reaches_key cwd absolute seen key) eqn:E; [|reflexivity].
    apply (reaches_key_mono _ _ _ _ Hi) in E; congruence. }
  pose proof (H true); pose proof (H false); lia.
Qed.

Lemma append_inj (a b c : string) : a ++ b = a ++ c -> b = c.
Proof.
  induction a as [|x a IH]; simpl; [tauto|].
  intros H; injection H as H; now apply IH.
Qed.

Lemma join_inj (a b c : string) :
  isabs b = false -> isabs c = false -> join a b = join a c -> b = c.
Proof.
  unfold isabs, join; intros -> ->.
  destruct ((a =? "") || endswith_char a sep); intros H.
  - now apply append_inj in H.
  - apply append_inj in H; now apply (append_inj "/") in H.
Qed.

(** Entering a link that is not in [seen] leaves strictly fewer. *)
Lemma pending_enter (seen : seen_t) (newpath target : string) (v : option string) :
  lstat fs cwd newpath = Some (Link target) ->
  seen_get seen newpath = None ->
  (pending fs cwd ((newpath, v) :: seen) < pending fs cwd seen)%nat.
Proof.
  unfold lstat; destruct (newpath =? ""); [discriminate|].
  intros Hn Hs; apply node_at_key in Hn; apply seen_get_none in Hs.
  assert (Hi : incl (map fst seen) (map fst ((newpath, v) :: seen)))
    by (intros k Hk; now right).
  assert (Hle : forall absolute,
             (List.length (filter (fun key => negb (reaches_key cwd absolute
                                                    ((newpath, v) :: seen) key))
                             (map fst fs))
              <= List.length (filter (fun key => negb (reaches_key cwd absolute seen key))
                                (map fst fs)))%nat).
  { intros absolute; apply filter_length_le; intros key _ H.
    apply negb_true_iff in H; apply negb_true_iff.
    destruct (reaches_key cwd absolute seen key) eqn:E; [|reflexivity].
    apply (reaches_key_mono _ _ _ _ Hi) in E; congruence. }
  assert (Hlt : (List.length (filter (fun key => negb (reaches_key cwd (isabs newpath)
                                                        ((newpath, v) :: seen) key))
                                 (map fst fs))
                 < List.length (filter (fun key => negb (reaches_key cwd (isabs newpath)
                                                          seen key))
                                  (map fst fs)))%nat).
  { apply (filter_length_lt _ _ _ (if isabs newpath then newpath else join cwd newpath)).
    - intros key _ H.
      apply negb_true_iff in H; apply negb_true_iff.
      destruct (reaches_key cwd (isabs newpath) seen key) eqn:E; [|reflexivity].
      apply (reaches_key_mono _ _ _ _ Hi) in E; congruence.
    - exact Hn.
    - apply negb_true_iff.
      destruct (reaches_key cwd (isabs newpath) seen
                  (if isabs newpath then newpath else join cwd newpath)) eqn:E;
        [|reflexivity].
      unfold reaches_key in E; apply existsb_exists in E.
      destruct E as [k [Hk E]]; apply andb_true_iff in E; destruct E as [E1 E2].
      apply Bool.eqb_prop in E1; apply String.eqb_eq in E2.
      destruct (isabs newpath) eqn:Ea.
      + subst k; contradiction.
      + apply (join_inj cwd k newpath E1 Ea) in E2.
        subst k; contradiction.
    - apply negb_false_iff; unfold reaches_key; simpl.
      rewrite Bool.eqb_reflx; simpl.
      destruct (isabs newpath); now rewrite String.eqb_refl. }
  unfold pending.
  pose proof (Hle true); pose proof (Hle false).
  destruct (isabs newpath); lia.
Qed.

Lemma loop_grows (resolve : string -> string -> seen_t -> string * bool * seen_t) :
  grows resolve ->
  forall names path seen,
    incl (map fst seen)
         (map fst (snd (joinrealpath_loop fs cwd resolve names path seen))).
Proof.
  intros Hr; induction names as [|name names IH]; intros path seen; simpl.
  - apply incl_refl.
  - destruct ((name =? "") || (name =? ".")); [apply IH|].
    destruct (name =? "..").
    { destruct (path =? ""); [apply IH|].
      destruct (after_last_sep path =? ".."); apply IH. }
    destruct (lstat fs cwd (join path name)) as [[| |target]|]; try apply IH.
    destruct (seen_get seen (join path name)) as [[p|]|].
    + apply IH.
    + apply incl_refl.
    + pose proof (Hr path target ((join path name, None) :: seen)) as Hs.
      destruct (resolve path target ((join path name, None) :: seen))
        as [[p ok] seen'] eqn:E; simpl in Hs.
      assert (Hi : incl (map fst seen) (map fst seen')).
      { intros k Hk; apply Hs; now right. }
      destruct ok; simpl.
      * intros k Hk; apply IH; right; now apply Hi.
      * exact Hi.
Qed.

Lemma joinrealpath_grows (fuel : nat) : grows (joinrealpath fs cwd fuel).
Proof.
  induction fuel as [|fuel IH]; intros path rest seen; simpl.
  - apply incl_refl.
  - now apply loop_grows.
Qed.

(** Two recursive calls that agree below [n] make the same loop on a
    [seen] that leaves at most [n] link paths. *)
Lemma loop_fuel (r1 r2 : string -> string -> seen_t -> string * bool * seen_t)
  (n : nat) :
  grows r1 ->
  (forall path rest seen,
      (pending fs cwd seen < n)%nat -> r1 path rest seen = r2 path rest seen) ->
  forall names path seen,
    (pending fs cwd seen <= n)%nat ->
    joinrealpath_loop fs cwd r1 names path seen
    = joinrealpath_loop fs cwd r2 names path seen.
Proof.
  intros Hg Hr; induction names as [|name names IH]; intros path seen Hp; simpl.
  - reflexivity.
  - destruct ((name =? "") || (name =? ".")); [now apply IH|].
    destruct (name =? "..").
    { destruct (path =? ""); [now apply IH|].
      destruct (after_last_sep path =? ".."); now apply IH. }
    destruct (lstat fs cwd (join path name)) as [[| |target]|] eqn:El;
      try now apply IH.
    destruct (seen_get seen (join path name)) as [[p|]|] eqn:Es.
    + now apply IH.
    + reflexivity.
    + pose proof (pending_enter seen (join path name) target None El Es) as Hlt.
      rewrite <- (Hr path target ((join path name, None) :: seen)) by lia.
      pose proof (Hg path target ((join path name, None) :: seen)) as Hs.
      destruct (r1 path target ((join path name, None) :: seen))
        as [[p ok] seen'] eqn:E; simpl in Hs.
      destruct ok; [|reflexivity].
      apply IH.
      assert (Hi : incl (map fst ((join path name, @None string) :: seen))
                        (map fst ((join path name, Some p) :: seen'))).
      { intros k [Hk|Hk]; [now left | right; apply Hs; now right]. }
      apply pending_mono in Hi; lia.
Qed.

(** The result does not depend on the fuel once it exceeds the number of
    link paths left to enter. *)
Theorem joinrealpath_fuel (fuel1 : nat) :
  forall (fuel2 : nat) (path rest : string) (seen : seen_t),
    (pending fs cwd seen < fuel1)%nat ->
    (pending fs cwd seen < fuel2)%nat ->
    joinrealpath fs cwd fuel1 path rest seen
    = joinrealpath fs cwd fuel2 path rest seen.
Proof.
  induction fuel1 as [|fuel1 IH]; intros fuel2 path rest seen H1 H2; [lia|].
  destruct fuel2 as [|fuel2]; [lia|]; simpl.
  apply (loop_fuel _ _ (pending fs cwd seen)).
  - apply joinrealpath_grows.
  - intros p r s Hs; apply IH; lia.
  - lia.
Qed.

Lemma filter_all {A : Type} (l : list A) : filter (fun _ => true) l = l.
Proof. induction l as [|a l IH]; simpl; [reflexivity | now rewrite IH]. Qed.

Lemma pending_start : pending fs cwd [] = (2 * List.length fs)%nat.
Proof.
  unfold pending, reaches_key; simpl.
  rewrite filter_all, length_map; lia.
Qed.

(** [realpath_fuel] is enough: more fuel gives the same path. *)
Corollary realpath_fuel_enough (fuel : nat) (filename : string) :
  (realpath_fuel fs <= fuel)%nat ->
  joinrealpath fs cwd fuel "" filename []
  = joinrealpath fs cwd (realpath_fuel fs) "" filename [].
Proof.
  intros H; apply joinrealpath_fuel; rewrite pending_start;
    unfold realpath_fuel in *; lia.
Qed.

End Fuel.

End RealpathFuel.

(* ------------------------------------------------------------------ *)
(** * [validate_path] *)

Module ContainmentFacts.
Import PyStr PosixPath OS Sandbox Spec.

Lemma prefix_nil (s : string) : String.prefix "" s = true.
Proof. destruct s; reflexivity. Qed.

Lemma prefix_refl (s : string) : String.prefix s s = true.
Proof.
  induction s as [|a s IH]; simpl; [reflexivity|].
  destruct (ascii_dec a a) as [_|n]; [exact IH | now elim n].
Qed.

Lemma prefix_cons (a b : ascii) (s t : string) :
  String.prefix (String a s) (String b t) = true <->
  a = b /\ String.prefix s t = true.
Proof.
  simpl. destruct (ascii_dec a b) as [e|n]; split.
  - intros H; now split.
  - now intros [_ H].
  - discriminate.
  - intros [e _]; now elim n.
Qed.

Lemma prefix_app_l (s t u : string) :
  String.prefix (s ++ t) u = true -> String.prefix s u = true.
Proof.
  revert u; induction s as [|a s IH]; intros u H.
  - apply prefix_nil.
  - destruct u as [|b u]; [discriminate H|].
    change ((String a s) ++ t) with (String a (s ++ t)) in H.
    apply prefix_cons in H; destruct H as [e H].
    apply prefix_cons; split; [exact e | now apply IH].
Qed.

Lemma eqb_prefix (s t : string) : (s =? t) = true -> String.prefix t s = true.
Proof. intros H; apply String.eqb_eq in H; subst; apply prefix_refl. Qed.

(** What the specification calls contained, the prefix test accepts. *)
Lemma spec_contained_startswith (p root : string) :
  spec_contained p root = true -> startswith p root = true.
Proof.
  unfold spec_contained, startswith; intros H.
  apply orb_true_iff in H; destruct H as [H|H].
  - now apply eqb_prefix.
  - now apply prefix_app_l in H.
Qed.

Lemma spec_contained_any (P : process) (p : string) :
  spec_contained_in_some p (allowed_directories P) = true ->
  any_startswith P p = true.
Proof.
  unfold spec_contained_in_some, any_startswith; intros H.
  apply existsb_exists in H; destruct H as [root [Hin H]].
  apply existsb_exists; exists root; split; [exact Hin|].
  now apply spec_contained_startswith.
Qed.

Lemma not_any_not_contained (P : process) (p : string) :
  any_startswith P p = false ->
  spec_contained_in_some p (allowed_directories P) = false.
Proof.
  intros H.
  destruct (spec_contained_in_some p (allowed_directories P)) eqn:E; [|reflexivity].
  apply spec_contained_any in E; congruence.
Qed.

(** The converse fails: the prefix test accepts a sibling of the root. *)
Example startswith_sibling :
  startswith "/allowedother" "/allowed" = true /\
  spec_contained "/allowedother" "/allowed" = false.
Proof. runs. Qed.

End ContainmentFacts.

Module ValidatePath.
Import PyStr PosixPath OS Sandbox Spec Scenario ContainmentFacts NormpathFacts.

(** [os.path.realpath] is called without [strict]: it raises no
    [OSError], so the [except OSError] branches are never entered. *)
Lemma realpath_returns (P : process) (p : string) :
  realpath P p = Some (realpath_of (fs P) (cwd P) p).
Proof. reflexivity. Qed.

(** The literal path and the canonical form are normalized already. *)
Lemma literal_normalized (P : process) (p : string) :
  normalize_path (literal P p) = literal P p.
Proof. apply normpath_idempotent. Qed.

Lemma canonical_normalized (P : process) (p : string) :
  normalize_path (canonical P p) = canonical P p.
Proof. apply normpath_idempotent. Qed.

(** The two tests decide the result. *)
Lemma validate_path_eq (M : messages) (P : process) (p : string) :
  validate_path M P p =
  if negb (any_startswith P (literal P p)) then OutsideAllowedRoots M P (literal P p)
  else if negb (any_startswith P (canonical P p))
       then SymlinkEscapesRoots M
       else Ok (canonical P p).
Proof.
  unfold validate_path, realpath.
  fold (literal P p); fold (canonical P p).
  now rewrite literal_normalized, canonical_normalized.
Qed.

(** A real path that no root is even a string prefix of is rejected. *)
Lemma symlink_escape_rejected (M : messages) (P : process) (p : string) :
  any_startswith P (literal P p) = true ->
  any_startswith P (canonical P p) = false ->
  validate_path M P p = SymlinkEscapesRoots M.
Proof. intros H1 H2; rewrite validate_path_eq, H1, H2; reflexivity. Qed.

Example symlink_to_etc_rejected :
  ServerPy.validate_path jail "/allowed/link" = SymlinkEscapesRoots english.
Proof. run. Qed.

Example outside_rejected :
  ServerPy.validate_path jail "/etc/passwd"
  = OutsideAllowedRoots english jail "/etc/passwd".
Proof. run. Qed.

Example inside_accepted :
  ServerPy.validate_path jail "/allowed/real/a.txt" = Ok "/allowed/real/a.txt".
Proof. run. Qed.

Example home_is_dropped :
  expand_home jail "~/notes" = "/notes".
Proof. run. Qed.

(** C1 (the code departs from it).  The claim: the containment test of
    [validate_path] accepts the normalized literal path only when it
    equals an allowed root or lies under root + separator, so that
    [/allowedother] is rejected as outside when the only root is
    [/allowed].  The code tests a bare string prefix: with the single
    root [/allowed], the literal path [/allowedother] is contained in no
    root and [validate_path] returns it. *)
Theorem validate_path_accepts_sibling :
  allowed_directories jail = ["/allowed"] /\
  literal jail "/allowedother" = "/allowedother" /\
  spec_contained_in_some "/allowedother" (allowed_directories jail) = false /\
  ServerPy.validate_path jail "/allowedother" = Ok "/allowedother" /\
  ServerPy.validate_path jail "/allowedother"
    <> OutsideAllowedRoots english jail "/allowedother".
Proof. runs. Qed.

(** C2 (the code departs from it).  The claim: a path whose literal form
    passes containment and that resolves, through a link inside an
    allowed root, to a real path outside every allowed root is rejected
    as a symlink escape.  [/allowed/sib] is a link inside the root
    [/allowed] to [/allowedother], which lies under no root; the prefix
    test accepts that real path and [validate_path] returns it. *)
Theorem validate_path_follows_link_to_sibling :
  node_at jail_disk "/allowed/sib" = Some (Link "/allowedother") /\
  spec_contained_in_some (literal jail "/allowed/sib") (allowed_directories jail) = true /\
  canonical jail "/allowed/sib" = "/allowedother" /\
  spec_contained_in_some "/allowedother" (allowed_directories jail) = false /\
  ServerPy.validate_path jail "/allowed/sib" = Ok "/allowedother" /\
  ServerPy.validate_path jail "/allowed/sib" <> SymlinkEscapesRoots english.
Proof. runs. Qed.

(** C3 (the code departs from it).  The claim: for a target that does
    not exist, [validate_path] returns the literal, unresolved path when
    the real path of the parent is inside the roots, and rejects with
    ParentMissing when the parent does not exist.  The fallback that
    would do so is entered on an [OSError] of [realpath], which is never
    raised: with a missing parent the path is returned, and below a
    linked parent the resolved path is returned, not the literal one. *)
Theorem validate_path_never_falls_back :
  (node_at jail_disk "/allowed/nodir" = None /\
   any_startswith jail (literal jail "/allowed/nodir/new.txt") = true /\
   ServerPy.validate_path jail "/allowed/nodir/new.txt"
     = Ok "/allowed/nodir/new.txt" /\
   ServerPy.validate_path jail "/allowed/nodir/new.txt"
     <> ParentMissing english "/allowed/nodir") /\
  (node_at jail_disk "/allowed/real/new.txt" = None /\
   realpath_of jail_disk "/" "/allowed/alias" = "/allowed/real" /\
   spec_contained_in_some "/allowed/real" (allowed_directories jail) = true /\
   literal jail "/allowed/alias/new.txt" = "/allowed/alias/new.txt" /\
   ServerPy.validate_path jail "/allowed/alias/new.txt"
     = Ok "/allowed/real/new.txt").
Proof. runs. Qed.

Lemma english_texts_differ (P : process) (a : string) :
  OutsideAllowedRoots english P a <> SymlinkEscapesRoots english.
Proof. unfold OutsideAllowedRoots, SymlinkEscapesRoots; simpl; discriminate. Qed.


(** The other half fails too: [/tmp/in] has its canonical form under
    the root and is rejected, its literal path being outside. *)
Example canonical_inside_rejected :
  canonical jail "/tmp/in" = "/allowed/real" /\
  spec_contained_in_some (canonical jail "/tmp/in") (allowed_directories jail) = true /\
  ServerPy.validate_path jail "/tmp/in" = OutsideAllowedRoots english jail "/tmp/in".
Proof. runs. Qed.


End ValidatePath.

(* ------------------------------------------------------------------ *)
(** * [search_files] *)

Module SearchFiles.
Import PyStr PosixPath OS Sandbox Spec Scenario Way.

Section Walk.
Variable M : messages.
Variable P : process.
Variables root_path pattern : string.
Variable exclude_patterns : list string.

Let body := search_body M P root_path pattern exclude_patterns.

(** The loop over the entries is a filter. *)
Lemma check_entries_filter (root : string) (names : list string)
  (results : list string) :
  fold_left (check_entry M P pattern root) names results
  = (results ++
     map (join root)
       (filter (fun name =>
                  is_ok (validate_path M P (join root name))
                  && contains (lower pattern) (lower name)) names))%list.
Proof.
  revert results; induction names as [|name names IH]; intros results; simpl.
  - now rewrite app_nil_r.
  - rewrite IH; unfold check_entry.
    destruct (validate_path M P (join root name)); simpl; [|reflexivity].
    destruct (contains (lower pattern) (lower name)); simpl; [|reflexivity].
    now rewrite <- app_assoc.
Qed.

Lemma relpath_none (cwd path start : string) :
  relpath cwd path start = None -> path = "".
Proof.
  unfold relpath; destruct (path =? "") eqn:E.
  - intros _; now apply String.eqb_eq.
  - destruct (_ ++ _)%list; discriminate.
Qed.

Lemma append_nonempty (a b : string) : a <> "" -> (a ++ b) <> "".
Proof. destruct a; [congruence | discriminate]. Qed.

Lemma join_nonempty (a b : string) : a <> "" -> join a b <> "".
Proof.
  intros Ha; unfold join.
  destruct (startswith b "/") eqn:Hb.
  - destruct b; [discriminate Hb | discriminate].
  - destruct ((a =? "") || endswith_char a sep); now apply append_nonempty.
Qed.

Lemma excluded_defined (root d : string) :
  root <> "" -> excluded P root_path exclude_patterns root d <> None.
Proof.
  intros Hr; unfold excluded.
  destruct exclude_patterns; [discriminate|].
  destruct (relpath (cwd P) (join root d) root_path) eqn:E; [discriminate|].
  apply relpath_none in E; now apply join_nonempty in E.
Qed.

Lemma kept_dirs_defined (root : string) (dirs : list string) :
  root <> "" -> kept_dirs P root_path exclude_patterns root dirs <> None.
Proof.
  intros Hr; induction dirs as [|d dirs IH]; simpl; [discriminate|].
  destruct (excluded P root_path exclude_patterns root d) eqn:E.
  - destruct (kept_dirs P root_path exclude_patterns root dirs); [discriminate|].
    now elim IH.
  - now apply excluded_defined in E.
Qed.

(** What is left in [dirs] is what no exclude pattern matches. *)
Lemma kept_dirs_in (root : string) (dirs kept : list string) (d : string) :
  kept_dirs P root_path exclude_patterns root dirs = Some kept ->
  (In d kept <->
   In d dirs /\ excluded P root_path exclude_patterns root d = Some false).
Proof.
  revert kept; induction dirs as [|d0 dirs IH]; intros kept; simpl.
  - intros [= <-]; simpl; tauto.
  - destruct (excluded P root_path exclude_patterns root d0) as [b|] eqn:E;
      [|discriminate].
    destruct (kept_dirs P root_path exclude_patterns root dirs) as [l|];
      [|discriminate].
    intros [= <-]; specialize (IH l eq_refl).
    destruct b; simpl; rewrite IH; split.
    + intros [H1 H2]; split; [now right | exact H2].
    + intros [[->|H1] H2]; [congruence | now split].
    + intros [->|[H1 H2]]; [split; [now left | exact E] | split; [now right | exact H2]].
    + intros [[->|H1] H2]; [now left | right; now split].
Qed.

Lemma scan_nonempty (top : string) (x : list string * list string) :
  scan (fs P) (cwd P) top = Some x -> top <> "".
Proof.
  unfold scan, listdir, stat; intros H ->; simpl in H; discriminate.
Qed.

(** The body adds entries of [root] only, and only when [root] passed. *)
Lemma body_results (results : list string) (root : string)
  (dirs files : list string) (p : string) :
  In p (fst (body results root dirs files)) ->
  In p results \/
  (is_ok (validate_path M P root) = true /\ exists name, p = join root name).
Proof.
  unfold body, search_body.
  destruct (validate_path M P root) eqn:Hv; simpl; [|now left].
  destruct (relpath (cwd P) root root_path); simpl; [|now left].
  destruct (kept_dirs P root_path exclude_patterns root dirs); simpl; [|now left].
  rewrite check_entries_filter, in_app_iff, in_map_iff.
  intros [H|[name [<- _]]]; [now left | right; split; [reflexivity | now exists name]].
Qed.

(** What the body leaves in [dirs]: when [root] passed, no directory
    that an exclude pattern matches. *)
Lemma body_dirs (results : list string) (root : string)
  (dirs files : list string) (d : string) :
  root <> "" ->
  In d (snd (body results root dirs files)) ->
  In d dirs /\
  (is_ok (validate_path M P root) = true ->
   excluded P root_path exclude_patterns root d = Some false).
Proof.
  intros Hr; unfold body, search_body.
  destruct (validate_path M P root) eqn:Hv; simpl; [|split; [assumption | discriminate]].
  destruct (relpath (cwd P) root root_path) eqn:Hrel; simpl;
    [|now apply relpath_none in Hrel].
  destruct (kept_dirs P root_path exclude_patterns root dirs) as [kept|] eqn:Hk; simpl;
    [|now apply kept_dirs_defined in Hk].
  intros H; apply (kept_dirs_in _ _ _ d Hk) in H; destruct H as [H1 H2].
  split; [exact H1 | now intros _].
Qed.

Lemma reached_step (top d p : string) :
  (is_ok (validate_path M P top) = true ->
   excluded P root_path exclude_patterns top d = Some false) ->
  reached M P root_path exclude_patterns (join top d) p ->
  reached M P root_path exclude_patterns top p.
Proof.
  intros Hd [ds [name [Hp [Hu Hv]]]].
  exists (d :: ds), name; simpl; repeat split; assumption.
Qed.

(** Every path the walk adds is reached on an unpruned way. *)
Lemma walk_reached (depth : nat) :
  forall (top : string) (st : list string) (p : string),
    In p (walk_for (fs P) (cwd P) depth body top st) ->
    In p st \/ reached M P root_path exclude_patterns top p.
Proof.
  induction depth as [|depth IH]; intros top st p; simpl; [now left|].
  destruct (scan (fs P) (cwd P) top) as [[dirs nondirs]|] eqn:Hs; [|now left].
  pose proof (scan_nonempty _ _ Hs) as Htop.
  destruct (body st top dirs nondirs) as [st' dirs'] eqn:Hb.
  assert (Hst' : forall q, In q st' ->
            In q st \/ reached M P root_path exclude_patterns top q).
  { intros q Hq.
    destruct (body_results st top dirs nondirs q) as [H|[Hv [name ->]]].
    - now rewrite Hb.
    - now left.
    - right; exists [], name; simpl; repeat split; assumption. }
  assert (Hdirs' : forall d, In d dirs' ->
            is_ok (validate_path M P top) = true ->
            excluded P root_path exclude_patterns top d = Some false).
  { intros d Hd; apply (body_dirs st top dirs nondirs d Htop); now rewrite Hb. }
  clear Hb Hs.
  revert st' Hst'; induction dirs' as [|d dirs' IHd]; intros st' Hst'; simpl.
  - apply Hst'.
  - apply IHd.
    + intros d' Hd'; apply Hdirs'; now right.
    + intros q Hq.
      destruct (islink (fs P) (cwd P) (join top d)); [now apply Hst'|].
      apply IH in Hq; destruct Hq as [Hq|Hq]; [now apply Hst'|].
      right; apply (reached_step top d q); [|exact Hq].
      apply Hdirs'; now left.
Qed.

End Walk.

(** Two bodies that agree make the same walk. *)
Lemma walk_for_ext {St : Type} (fs : filesystem) (cwd : string)
  (body1 body2 : St -> string -> list string -> list string -> St * list string) :
  (forall st root dirs files, body1 st root dirs files = body2 st root dirs files) ->
  forall depth top st,
    walk_for fs cwd depth body1 top st = walk_for fs cwd depth body2 top st.
Proof.
  intros Hb; induction depth as [|depth IH]; intros top st; simpl; [reflexivity|].
  destruct (scan fs cwd top) as [[dirs nondirs]|]; [|reflexivity].
  rewrite Hb; destruct (body2 st top dirs nondirs) as [st' dirs'].
  revert st'; induction dirs' as [|d dirs' IHd]; intros st'; simpl; [reflexivity|].
  rewrite IH; apply IHd.
Qed.

End SearchFiles.

(* ------------------------------------------------------------------ *)
(** * [directory_tree] *)

Module DirectoryTree.
Import PyStr PosixPath OS Sandbox Spec Scenario.

Section Build.
Variable M : messages.
Variable P : process.

Lemma entries_after_raise (build : string -> reply (list json))
  (current_path : string) (entries : list string) (e : exn) :
  fold_left (tree_entry M P build current_path) entries (Raises e) = Raises e.
Proof. induction entries as [|entry entries IH]; simpl; [reflexivity | exact IH]. Qed.

(** One entry: it is left out, or it is appended, or the listing of a
    subdirectory raises. *)
Lemma tree_entry_cases (build : string -> reply (list json))
  (current_path : string) (result : list json) (entry : string) :
  let entry_path := join current_path entry in
  (is_ok (validate_path M P entry_path) = false
   /\ tree_entry M P build current_path (Returns result) entry = Returns result)
  \/ (is_ok (validate_path M P entry_path) = true
      /\ isdir (fs P) (cwd P) entry_path = false
      /\ tree_entry M P build current_path (Returns result) entry
         = Returns (result ++
             [JObject [("name", JString entry); ("type", JString "file")]])%list)
  \/ (is_ok (validate_path M P entry_path) = true
      /\ isdir (fs P) (cwd P) entry_path = true
      /\ exists children,
           build entry_path = Returns children
           /\ tree_entry M P build current_path (Returns result) entry
              = Returns (result ++
                  [JObject [("name", JString entry);
                            ("type", JString "directory");
                            ("children", JArray children)]])%list)
  \/ (is_ok (validate_path M P entry_path) = true
      /\ isdir (fs P) (cwd P) entry_path = true
      /\ exists e,
           build entry_path = Raises e
           /\ tree_entry M P build current_path (Returns result) entry = Raises e).
Proof.
  intros entry_path; subst entry_path; unfold tree_entry.
  destruct (validate_path M P (join current_path entry)); simpl; [|now left].
  destruct (isdir (fs P) (cwd P) (join current_path entry)); simpl.
  - destruct (build (join current_path entry)) as [children|e].
    + right; right; left; repeat split; now exists children.
    + right; right; right; repeat split; now exists e.
  - right; left; repeat split.
Qed.

(** The names in the result are the entries that pass, in order. *)
Lemma entries_names (build : string -> reply (list json))
  (current_path : string) (entries : list string) :
  forall result nodes,
    fold_left (tree_entry M P build current_path) entries (Returns result)
    = Returns nodes ->
    map node_name nodes
    = (map node_name result ++ map Some (passing M P current_path entries))%list.
Proof.
  induction entries as [|entry entries IH]; intros result nodes; cbn [fold_left].
  - intros [= <-]; unfold passing; simpl; now rewrite app_nil_r.
  - destruct (tree_entry_cases build current_path result entry)
      as [[Hv ->]|[[Hv [_ ->]]|[[Hv [_ [children [_ ->]]]]|[Hv [_ [e [_ ->]]]]]]];
      unfold passing; cbn [filter]; rewrite Hv; fold (passing M P current_path entries).
    + apply IH.
    + intros H; apply IH in H; rewrite H, map_app, <- app_assoc; reflexivity.
    + intros H; apply IH in H; rewrite H, map_app, <- app_assoc; reflexivity.
    + rewrite entries_after_raise; discriminate.
Qed.

(** No [ValueError] leaves the loop when none leaves the inner calls. *)
Lemma entries_swallow (build : string -> reply (list json))
  (current_path : string) (entries : list string) :
  (forall p message, build p <> Raises (ValueErr message)) ->
  forall result message,
    fold_left (tree_entry M P build current_path) entries (Returns result)
    <> Raises (ValueErr message).
Proof.
  intros Hb; induction entries as [|entry entries IH]; intros result message;
    cbn [fold_left].
  - discriminate.
  - destruct (tree_entry_cases build current_path result entry)
      as [[_ ->]|[[_ [_ ->]]|[[_ [_ [children [_ ->]]]]|[_ [_ [e [He ->]]]]]]];
      try apply IH.
    rewrite entries_after_raise; intros [= ->]; now apply Hb in He.
Qed.

Lemma build_tree_swallows (depth : nat) :
  forall current_path message,
    build_tree M P depth current_path <> Raises (ValueErr message).
Proof.
  induction depth as [|depth IH]; intros current_path message; simpl.
  - discriminate.
  - destruct (listdir (fs P) (cwd P) current_path); [|discriminate].
    now apply entries_swallow.
Qed.

Lemma build_tree_names (depth : nat) (current_path : string) (nodes : list json) :
  build_tree M P depth current_path = Returns nodes ->
  exists entries,
    listdir (fs P) (cwd P) current_path = Some entries
    /\ map node_name nodes = map Some (passing M P current_path entries).
Proof.
  destruct depth as [|depth]; simpl; [discriminate|].
  destruct (listdir (fs P) (cwd P) current_path) as [entries|]; [|discriminate].
  intros H; exists entries; split; [reflexivity|].
  now apply entries_names in H.
Qed.

Lemma forallb_snoc {A : Type} (f : A -> bool) (l : list A) (a : A) :
  forallb f (l ++ [a]) = forallb f l && f a.
Proof. rewrite forallb_app; simpl; now rewrite andb_true_r. Qed.

Lemma entries_shaped (build : string -> reply (list json))
  (current_path : string) (entries : list string) :
  (forall p children, build p = Returns children ->
                      forallb well_shaped children = true) ->
  forall result nodes,
    forallb well_shaped result = true ->
    fold_left (tree_entry M P build current_path) entries (Returns result)
    = Returns nodes ->
    forallb well_shaped nodes = true.
Proof.
  intros Hb; induction entries as [|entry entries IH]; intros result nodes Hr;
    cbn [fold_left].
  - now intros [= <-].
  - destruct (tree_entry_cases build current_path result entry)
      as [[_ ->]|[[_ [_ ->]]|[[_ [_ [children [Hc ->]]]]|[_ [_ [e [_ ->]]]]]]].
    + now apply IH.
    + apply IH; rewrite forallb_snoc, Hr; reflexivity.
    + apply IH; rewrite forallb_snoc, Hr; simpl.
      apply Hb in Hc; rewrite Hc; reflexivity.
    + rewrite entries_after_raise; discriminate.
Qed.

Lemma build_tree_shaped (depth : nat) :
  forall current_path nodes,
    build_tree M P depth current_path = Returns nodes ->
    forallb well_shaped nodes = true.
Proof.
  induction depth as [|depth IH]; intros current_path nodes; simpl.
  - discriminate.
  - destruct (listdir (fs P) (cwd P) current_path) as [entries|]; [|discriminate].
    apply entries_shaped; [exact IH | reflexivity].
Qed.

End Build.

End DirectoryTree.

(* ------------------------------------------------------------------ *)
(** * The walkers: pruning, failures, shape, and the two source files *)

Module Walkers.
Import PyStr PosixPath OS Sandbox Spec Scenario Way.
Import ValidatePath SearchFiles DirectoryTree.




(** The scenario of the specification. *)
Example search_scenario :
  ServerPy.search_files_tool sandbox "/sandbox" "foo" ["sub"]
  = Returns "/sandbox/foo2.txt".
Proof. run. Qed.

Example search_no_match :
  ServerPy.search_files_tool sandbox "/sandbox" "zzz" []
  = Returns "No matches found".
Proof. run. Qed.


Example tree_skips_escaping_link :
  directory_tree english jail 5 "/allowed/real"
  = Returns (JArray [JObject [("name", JString "a.txt"); ("type", JString "file")]])
  /\ exists nodes,
       build_tree english jail 5 "/allowed" = Returns nodes
       /\ map node_name nodes = [Some "real"; Some "alias"; Some "sib"].
Proof. split; [run | eexists; split; vm_compute; reflexivity]. Qed.

Example tree_root_rejected :
  exists message, directory_tree english jail 5 "/etc" = Raises (ValueErr message).
Proof. eexists; vm_compute; reflexivity. Qed.

(** C7.  In every tree [build_tree] produces, every node of type
    directory has a [children] field holding a list, possibly empty, and
    no node of type file has a [children] field. *)
Theorem build_tree_well_shaped (M : messages) (P : process) (depth : nat)
  (current_path : string) (nodes : list json) :
  build_tree M P depth current_path = Returns nodes ->
  forallb well_shaped nodes = true.
Proof. apply build_tree_shaped. Qed.

Lemma build_tree_well_shaped_witness :
  exists nodes,
    build_tree english sandbox 5 "/sandbox" = Returns nodes
    /\ forallb well_shaped nodes = true.
Proof.
  eexists; split; [vm_compute; reflexivity|].
  apply (build_tree_well_shaped english sandbox 5 "/sandbox"); vm_compute; reflexivity.
Defined.

Example tree_of_sandbox :
  build_tree english sandbox 5 "/sandbox"
  = Returns
      [ JObject [("name", JString "sub"); ("type", JString "directory");
                 ("children",
                  JArray [JObject [("name", JString "foo.txt");
                                   ("type", JString "file")]])];
        JObject [("name", JString "foo2.txt"); ("type", JString "file")];
        JObject [("name", JString "notes"); ("type", JString "directory");
                 ("children", JArray [])] ].
Proof. run. Qed.

Example shape_rejects :
  well_shaped (JObject [("name", JString "d"); ("type", JString "directory")]) = false
  /\ well_shaped (JObject [("name", JString "f"); ("type", JString "file");
                           ("children", JArray [])]) = false.
Proof. runs. Qed.

(** The message table does not change which test fails. *)
Lemma validate_path_agree (M1 M2 : messages) (P : process) (p : string) :
  (validate_path M1 P p = Ok (canonical P p)
   /\ validate_path M2 P p = Ok (canonical P p))
  \/ (validate_path M1 P p = OutsideAllowedRoots M1 P (literal P p)
      /\ validate_path M2 P p = OutsideAllowedRoots M2 P (literal P p))
  \/ (validate_path M1 P p = SymlinkEscapesRoots M1
      /\ validate_path M2 P p = SymlinkEscapesRoots M2).
Proof.
  rewrite !validate_path_eq.
  destruct (any_startswith P (literal P p)); simpl; [|now right; left].
  destruct (any_startswith P (canonical P p)); simpl;
    [now left | now right; right].
Qed.

Lemma is_ok_agree (M1 M2 : messages) (P : process) (p : string) :
  is_ok (validate_path M1 P p) = is_ok (validate_path M2 P p).
Proof.
  destruct (validate_path_agree M1 M2 P p) as [[-> ->]|[[-> ->]|[-> ->]]]; reflexivity.
Qed.

Lemma check_entry_agree (M1 M2 : messages) (P : process)
  (pattern root : string) (results : list string) (name : string) :
  check_entry M1 P pattern root results name
  = check_entry M2 P pattern root results name.
Proof.
  unfold check_entry.
  destruct (validate_path_agree M1 M2 P (join root name)) as [[-> ->]|[[-> ->]|[-> ->]]];
    reflexivity.
Qed.

Lemma fold_left_agree {A B : Type} (f g : A -> B -> A) (l : list B) (a : A) :
  (forall x y, f x y = g x y) -> fold_left f l a = fold_left g l a.
Proof.
  intros H; revert a; induction l as [|b l IH]; intros a; simpl; [reflexivity|].
  now rewrite H, IH.
Qed.

Lemma search_body_agree (M1 M2 : messages) (P : process)
  (root_path pattern : string) (exclude_patterns : list string)
  (results : list string) (root : string) (dirs files : list string) :
  search_body M1 P root_path pattern exclude_patterns results root dirs files
  = search_body M2 P root_path pattern exclude_patterns results root dirs files.
Proof.
  unfold search_body.
  destruct (validate_path_agree M1 M2 P root) as [[-> ->]|[[-> ->]|[-> ->]]];
    try reflexivity.
  destruct (relpath (cwd P) root root_path); [|reflexivity].
  destruct (kept_dirs P root_path exclude_patterns root dirs); [|reflexivity].
  f_equal; apply fold_left_agree; intros; apply check_entry_agree.
Qed.


Example servers_differ_in_text :
  ServerPy.validate_path jail "/etc" <> ServerEsPy.validate_path jail "/etc".
Proof. run. Qed.

End Walkers.

(* ------------------------------------------------------------------ *)
(** * [SequentialThinkingServer.process_thought] *)

Module ThinkingFacts.
Import Thinking.

(** Validation fails exactly on the inputs that are not [valid]. *)
Lemma validate_fails_iff (input_data : dict) :
  valid input_data = false <->
  exists e, validate_thought_data input_data = inl e.
Proof.
  unfold valid, validate_thought_data.
  destruct (is_str (get input_data "thought")); simpl;
    [|split; [eexists; reflexivity | reflexivity]].
  destruct (is_int (get input_data "thoughtNumber")); simpl;
    [|split; [eexists; reflexivity | reflexivity]].
  destruct (is_int (get input_data "totalThoughts")); simpl;
    [|split; [eexists; reflexivity | reflexivity]].
  destruct (is_bool (get input_data "nextThoughtNeeded")); simpl;
    [|split; [eexists; reflexivity | reflexivity]].
  split; [discriminate | intros [e H]; discriminate H].
Qed.

Lemma valid_cases (input_data : dict) :
  valid input_data = false <->
  is_str (get input_data "thought") = false
  \/ is_int (get input_data "thoughtNumber") = false
  \/ is_int (get input_data "totalThoughts") = false
  \/ is_bool (get input_data "nextThoughtNeeded") = false.
Proof.
  unfold valid.
  destruct (is_str (get input_data "thought")),
    (is_int (get input_data "thoughtNumber")),
    (is_int (get input_data "totalThoughts")),
    (is_bool (get input_data "nextThoughtNeeded")); simpl; intuition discriminate.
Qed.

(** What validation returns on a valid input. *)
Lemma validate_valid (input_data : dict) :
  valid input_data = true ->
  validate_thought_data input_data
  = inr [ ("thought", get input_data "thought");
          ("thoughtNumber", get input_data "thoughtNumber");
          ("totalThoughts", get input_data "totalThoughts");
          ("nextThoughtNeeded", get input_data "nextThoughtNeeded");
          ("isRevision", get input_data "isRevision");
          ("revisesThought", get input_data "revisesThought");
          ("branchFromThought", get input_data "branchFromThought");
          ("branchId", get input_data "branchId");
          ("needsMoreThoughts", get input_data "needsMoreThoughts") ].
Proof.
  unfold valid, validate_thought_data; intros H.
  apply andb_true_iff in H; destruct H as [H H4].
  apply andb_true_iff in H; destruct H as [H H3].
  apply andb_true_iff in H; destruct H as [H1 H2].
  now rewrite H1, H2, H3, H4.
Qed.

(** C9.  On an input that fails validation (thought not a string,
    thoughtNumber or totalThoughts not an integer, nextThoughtNeeded not
    a boolean), [process_thought] returns a dictionary with an [error]
    key and [status] equal to [failed], and leaves [thought_history] and
    [branches] as they were. *)
Theorem invalid_thought_rejected (self : server) (input_data : dict) :
  is_str (get input_data "thought") = false
  \/ is_int (get input_data "thoughtNumber") = false
  \/ is_int (get input_data "totalThoughts") = false
  \/ is_bool (get input_data "nextThoughtNeeded") = false ->
  (exists message,
      lookup (fst (process_thought self input_data)) "error" = Some (VStr message))
  /\ lookup (fst (process_thought self input_data)) "status" = Some (VStr "failed")
  /\ snd (process_thought self input_data) = self.
Proof.
  intros H; apply valid_cases, validate_fails_iff in H; destruct H as [e H].
  unfold process_thought; rewrite H; simpl.
  split; [now exists (str_of e) | split; reflexivity].
Qed.

Lemma invalid_thought_rejected_witness :
  let input_data := [("thought", VStr "step"); ("thoughtNumber", VStr "1");
                     ("totalThoughts", VInt 3); ("nextThoughtNeeded", VBool true)] in
  is_int (get input_data "thoughtNumber") = false
  /\ (exists message,
         lookup (fst (process_thought init input_data)) "error" = Some (VStr message))
  /\ lookup (fst (process_thought init input_data)) "status" = Some (VStr "failed")
  /\ snd (process_thought init input_data) = init.
Proof.
  intros input_data; split; [reflexivity|].
  apply (invalid_thought_rejected init input_data).
  right; left; reflexivity.
Defined.

Example rejected_response :
  fst (process_thought init [("thought", VInt 7)])
  = [("error", VStr "Invalid thought: must be a string"); ("status", VStr "failed")].
Proof. run. Qed.

(** A [bool] is an [int]: this input passes. *)
Example bool_counts_as_int :
  valid [("thought", VStr "t"); ("thoughtNumber", VBool true);
         ("totalThoughts", VInt 3); ("nextThoughtNeeded", VBool false)] = true.
Proof. run. Qed.


(** The response of a call that reaches its [return]. *)
Lemma response_fields (self : server) (input_data : dict) :
  valid input_data = true ->
  (truthy (get input_data "branchFromThought")
   && truthy (get input_data "branchId") = true ->
   hashable (get input_data "branchId") = true) ->
  let tn := get input_data "thoughtNumber" in
  let tt := get input_data "totalThoughts" in
  lookup (fst (process_thought self input_data)) "totalThoughts"
  = Some (if (int_of tn >? int_of tt)%Z then tn else tt)
  /\ lookup (fst (process_thought self input_data)) "thoughtHistoryLength"
     = Some (VInt (Z.of_nat (List.length (thought_history self)) + 1)).
Proof.
  intros Hv Hh tn tt; subst tn tt.
  unfold process_thought; rewrite (validate_valid _ Hv).
  cbn [get lookup String.eqb Ascii.eqb Bool.eqb].
  destruct (int_of (get input_data "thoughtNumber")
            >? int_of (get input_data "totalThoughts"))%Z;
    cbn [set get lookup String.eqb Ascii.eqb Bool.eqb];
    (destruct (truthy (get input_data "branchFromThought")
               && truthy (get input_data "branchId")) eqn:Hb;
     [rewrite (Hh eq_refl)|]);
    cbn [negb fst lookup String.eqb Ascii.eqb Bool.eqb];
    rewrite length_app, Nat2Z.inj_add; split; reflexivity.
Qed.



Example branch_response :
  fst (process_thought init
         [("thought", VStr "t"); ("thoughtNumber", VInt 5);
          ("totalThoughts", VInt 3); ("nextThoughtNeeded", VBool true);
          ("branchFromThought", VInt 2); ("branchId", VStr "b")])
  = [("thoughtNumber", VInt 5); ("totalThoughts", VInt 5);
     ("nextThoughtNeeded", VBool true); ("branches", VList [VStr "b"]);
     ("thoughtHistoryLength", VInt 1)].
Proof. run. Qed.

End ThinkingFacts.

(* ------------------------------------------------------------------ *)
(** * More on the path functions: [expand_home], [normalize_path],
      [allowed_directories] and what [validate_path] returns *)

Module MorePaths.
Import PyStr PosixPath OS Sandbox Spec Scenario.
Import ContainmentFacts NormpathFacts ValidatePath.

Lemma isabs_cases (p : string) :
  isabs p = true -> exists rest, p = String sep rest.
Proof.
  unfold isabs; rewrite startswith_sep.
  destruct p as [|a rest]; [discriminate|].
  intros H; apply Ascii.eqb_eq in H; subst a; now exists rest.
Qed.

Lemma isabs_cons (rest : string) : isabs (String sep rest) = true.
Proof. unfold isabs; rewrite startswith_sep; apply Ascii.eqb_refl. Qed.

(** [normpath] keeps a leading separator. *)
Lemma isabs_normpath (p : string) : isabs p = true -> isabs (normpath p) = true.
Proof.
  intros H; destruct (isabs_cases p H) as [rest ->].
  unfold normpath, initial_slashes.
  unfold isabs in H; rewrite H.
  change (String sep rest =? "") with false; cbv iota.
  set (stack1 := fold_left (normpath_step 1) (split sep (String sep rest)) []).
  set (stack2 := fold_left (normpath_step 2) (split sep (String sep rest)) []).
  destruct (startswith (String sep rest) "//"
            && negb (startswith (String sep rest) "///")).
  - change (slashes 2 ++ String.concat "/" (rev stack2))
      with (String sep (String sep (String.concat "/" (rev stack2)))).
    change (String sep (String sep (String.concat "/" (rev stack2))) =? "")
      with false; cbv iota.
    apply isabs_cons.
  - change (slashes 1 ++ String.concat "/" (rev stack1))
      with (String sep (String.concat "/" (rev stack1))).
    change (String sep (String.concat "/" (rev stack1)) =? "") with false; cbv iota.
    apply isabs_cons.
Qed.

Lemma isabs_join (a b : string) :
  isabs a = true -> isabs b = false -> isabs (join a b) = true.
Proof.
  intros Ha Hb; destruct (isabs_cases a Ha) as [rest ->].
  unfold join; unfold isabs in Hb; rewrite Hb.
  destruct ((String sep rest =? "") || endswith_char (String sep rest) sep);
    apply isabs_cons.
Qed.

(** In a process with an absolute working directory, [abspath] is absolute. *)
Lemma isabs_abspath (cwd p : string) :
  isabs cwd = true -> isabs (abspath cwd p) = true.
Proof.
  intros Hc; unfold abspath; apply isabs_normpath.
  destruct (isabs p) eqn:E; [exact E | now apply isabs_join].
Qed.

(** X1.  [normalize_path] is idempotent. *)
Theorem normalize_path_idempotent (p : string) :
  normalize_path (normalize_path p) = normalize_path p.
Proof. unfold normalize_path; apply normpath_idempotent. Qed.

(** X2.  Every allowed directory is normalized, and absolute when the
    working directory is. *)
Theorem allowed_directories_normalized (P : process) (dir : string) :
  In dir (allowed_directories P) ->
  normalize_path dir = dir
  /\ (isabs (cwd P) = true -> isabs dir = true).
Proof.
  unfold allowed_directories; intros H.
  apply in_map_iff in H; destruct H as [arg [<- _]]; split.
  - unfold normalize_path; apply normpath_idempotent.
  - intros Hc; unfold normalize_path.
    apply isabs_normpath; now apply isabs_abspath.
Qed.

Lemma allowed_directories_normalized_witness :
  In "/allowed" (allowed_directories jail)
  /\ normalize_path "/allowed" = "/allowed"
  /\ (isabs (cwd jail) = true -> isabs "/allowed" = true).
Proof.
  split; [vm_compute; now left|].
  apply (allowed_directories_normalized jail "/allowed"); vm_compute; now left.
Defined.

Lemma startswith_tilde_slash (rest : string) :
  startswith ("~/" ++ rest) "~/" = true.
Proof.
  change ("~/" ++ rest) with (String "~" (String sep rest)).
  change "~/" with (String "~" (String sep "")).
  now rewrite !startswith_cons, !Ascii.eqb_refl, startswith_nil.
Qed.

Lemma expand_home_absolute (P : process) (p : string) :
  isabs p = true -> expand_home P p = p.
Proof.
  intros H; destruct (isabs_cases p H) as [rest ->].
  unfold expand_home.
  change "~/" with (String "~" (String sep "")).
  rewrite startswith_cons.
  change (Ascii.eqb "~" sep) with false; simpl andb; simpl orb.
  destruct (String sep rest =? "~") eqn:E; [|reflexivity].
  apply String.eqb_eq in E; discriminate E.
Qed.

(** X3.  [expand_home] loses the home directory: [~/rest] becomes
    [/rest], because [os.path.join] restarts at an absolute second
    argument; so [validate_path] treats [~/rest] as [/rest].  A path
    that is not [~] and does not start with [~/] is left as it is. *)
Theorem expand_home_drops_home (M : messages) (P : process) (rest : string) :
  expand_home P ("~/" ++ rest) = "/" ++ rest
  /\ validate_path M P ("~/" ++ rest) = validate_path M P ("/" ++ rest)
  /\ expand_home P "~" = join (home P) ""
  /\ (forall p, startswith p "~/" = false -> p <> "~" -> expand_home P p = p).
Proof.
  assert (H1 : expand_home P ("~/" ++ rest) = "/" ++ rest).
  { unfold expand_home; rewrite startswith_tilde_slash; simpl orb; cbv iota.
    change (tail ("~/" ++ rest)) with (String sep rest).
    unfold join; rewrite (isabs_cons rest : startswith (String sep rest) "/" = true).
    reflexivity. }
  assert (H2 : expand_home P ("/" ++ rest) = "/" ++ rest)
    by apply (expand_home_absolute P _ (isabs_cons rest)).
  split; [exact H1|]. split; [|split].
  - unfold validate_path; now rewrite H1, H2.
  - reflexivity.
  - intros p Hp Hn; unfold expand_home; rewrite Hp.
    apply String.eqb_neq in Hn; now rewrite Hn.
Qed.

Example home_alone : expand_home jail "~" = "/home/user/".
Proof. run. Qed.

(** X4.  What [validate_path] returns is the canonical form of the
    request; it is normalized, an allowed directory is a prefix of it
    and of the literal path, and it is absolute when the working
    directory is. *)
Theorem validated_path_guarantee (M : messages) (P : process) (p r : string) :
  validate_path M P p = Ok r ->
  r = canonical P p
  /\ normalize_path r = r
  /\ any_startswith P r = true
  /\ any_startswith P (literal P p) = true
  /\ (isabs (cwd P) = true -> isabs r = true).
Proof.
  rewrite validate_path_eq.
  destruct (any_startswith P (literal P p)) eqn:Hl; simpl; [|discriminate].
  destruct (any_startswith P (canonical P p)) eqn:Hc; simpl; [|discriminate].
  intros [= <-]; split; [reflexivity|].
  split; [apply canonical_normalized|].
  split; [exact Hc|]. split; [reflexivity|].
  intros Ha; unfold canonical, realpath_of; now apply isabs_abspath.
Qed.

Lemma validated_path_guarantee_witness :
  validate_path english jail "/allowed/alias/a.txt" = Ok "/allowed/real/a.txt"
  /\ "/allowed/real/a.txt" = canonical jail "/allowed/alias/a.txt"
  /\ normalize_path "/allowed/real/a.txt" = "/allowed/real/a.txt"
  /\ any_startswith jail "/allowed/real/a.txt" = true
  /\ any_startswith jail (literal jail "/allowed/alias/a.txt") = true
  /\ (isabs (cwd jail) = true -> isabs "/allowed/real/a.txt" = true).
Proof.
  split; [vm_compute; reflexivity|].
  apply (validated_path_guarantee english jail); vm_compute; reflexivity.
Defined.

(** The literal path of a literal path is itself. *)
Lemma literal_literal (P : process) (p : string) :
  isabs (cwd P) = true -> literal P (literal P p) = literal P p.
Proof.
  intros Hc; unfold literal at 1.
  pose proof (isabs_abspath (cwd P) (expand_home P p) Hc) as Ha.
  fold (literal P p) in Ha.
  rewrite (expand_home_absolute P _ Ha).
  unfold abspath at 1; rewrite Ha.
  apply (literal_normalized P p).
Qed.

(** X5.  In a process with an absolute working directory,
    [validate_path] gives the same result on a request and on its
    literal path: relative segments, [.], [..] and doubled separators in
    the request do not matter. *)
Theorem validate_path_of_literal (M : messages) (P : process) (p : string) :
  isabs (cwd P) = true ->
  validate_path M P (literal P p) = validate_path M P p.
Proof.
  intros Hc; rewrite !validate_path_eq.
  unfold canonical; now rewrite (literal_literal P p Hc).
Qed.

Lemma validate_path_of_literal_witness :
  isabs (cwd jail) = true
  /\ literal jail "allowed//real/../real/./a.txt" = "/allowed/real/a.txt"
  /\ validate_path english jail (literal jail "allowed//real/../real/./a.txt")
     = validate_path english jail "allowed//real/../real/./a.txt".
Proof.
  split; [reflexivity|]. split; [vm_compute; reflexivity|].
  apply (validate_path_of_literal english jail); reflexivity.
Defined.

Lemma prefix_app (s t : string) : String.prefix s (s ++ t) = true.
Proof.
  induction s as [|a s IH]; simpl; [apply prefix_nil|].
  destruct (ascii_dec a a) as [_|n]; [exact IH | now elim n].
Qed.

(** X6.  A directory named on the command line is an allowed directory
    in its literal form, and the first test of [validate_path] accepts
    every text that extends this form, whatever comes after it; so on
    the argument itself [validate_path] never gives the first rejection:
    it returns the canonical form, or rejects it as a link that leaves
    the allowed directories. *)
Theorem root_passes_first_test (M : messages) (P : process) (arg : string) :
  In arg (argv P) ->
  In (literal P arg) (allowed_directories P)
  /\ (forall rest, any_startswith P (literal P arg ++ rest) = true)
  /\ validate_path M P arg
     = if any_startswith P (canonical P arg) then Ok (canonical P arg)
       else SymlinkEscapesRoots M.
Proof.
  intros H.
  assert (Hin : In (literal P arg) (allowed_directories P)).
  { unfold allowed_directories; apply in_map_iff; exists arg.
    split; [apply (literal_normalized P arg) | exact H]. }
  assert (Hany : forall rest, any_startswith P (literal P arg ++ rest) = true).
  { intros rest; unfold any_startswith; apply existsb_exists.
    exists (literal P arg); split; [exact Hin | apply prefix_app]. }
  split; [exact Hin|]. split; [exact Hany|].
  rewrite validate_path_eq.
  replace (any_startswith P (literal P arg)) with true.
  - now destruct (any_startswith P (canonical P arg)).
  - symmetry; unfold any_startswith; apply existsb_exists.
    exists (literal P arg); split; [exact Hin | apply prefix_refl].
Qed.

Lemma root_passes_first_test_witness :
  In "/allowed" (argv jail)
  /\ In (literal jail "/allowed") (allowed_directories jail)
  /\ (forall rest, any_startswith jail (literal jail "/allowed" ++ rest) = true)
  /\ validate_path english jail "/allowed"
     = if any_startswith jail (canonical jail "/allowed")
       then Ok (canonical jail "/allowed")
       else SymlinkEscapesRoots english.
Proof.
  split; [now left|].
  apply (root_passes_first_test english jail "/allowed"); now left.
Defined.

End MorePaths.

(* ------------------------------------------------------------------ *)
(** * [realpath] and [validate_path] on a file system without links *)

Module MoreRealpath.
Import PyStr PosixPath OS Sandbox Spec Scenario LinkFree.
Import ContainmentFacts NormpathFacts ValidatePath MorePaths.

Lemma comp_head (c : string) :
  c <> "" -> no_sep c = true ->
  exists a rest, c = String a rest /\ Ascii.eqb a sep = false.
Proof.
  destruct c as [|a rest]; [congruence|]; simpl; intros _ H.
  apply andb_true_iff in H; destruct H as [H _].
  exists a, rest; split; [reflexivity | now apply negb_true_iff].
Qed.

Lemma comp_not_abs (c : string) : is_comp c -> startswith c "/" = false.
Proof.
  intros [H1 [_ H3]]; destruct (comp_head c H1 H3) as [a [rest [-> Ha]]].
  now rewrite startswith_sep.
Qed.

Lemma endswith_comp (c : string) : no_sep c = true -> endswith_char c sep = false.
Proof.
  induction c as [|a c IH]; [reflexivity|]; simpl; intros H.
  apply andb_true_iff in H; destruct H as [Ha Hc].
  destruct c as [|b c]; [now apply negb_true_iff | now apply IH].
Qed.

Lemma endswith_app_comp (x c : string) :
  c <> "" -> no_sep c = true -> endswith_char (x ++ c) sep = false.
Proof.
  intros Hn Hc; induction x as [|a x IH]; simpl; [now apply endswith_comp|].
  destruct (x ++ c) as [|b rest] eqn:E; [|exact IH].
  destruct x; simpl in E; [congruence | discriminate].
Qed.

Lemma append_assoc (a b c : string) : (a ++ b) ++ c = a ++ b ++ c.
Proof. induction a as [|x a IH]; simpl; [reflexivity | now rewrite IH]. Qed.

Lemma concat_snoc (l : list string) (c : string) :
  l <> [] -> String.concat "/" (l ++ [c]) = String.concat "/" l ++ "/" ++ c.
Proof.
  induction l as [|x l IH]; [congruence|]; intros _.
  destruct l as [|y l]; [reflexivity|].
  change (String.concat "/" ((x :: y :: l) ++ [c]))
    with (x ++ "/" ++ String.concat "/" ((y :: l) ++ [c])).
  rewrite IH by discriminate.
  change (String.concat "/" (x :: y :: l))
    with (x ++ "/" ++ String.concat "/" (y :: l)).
  now rewrite !append_assoc.
Qed.

(** [join] on the path built so far and one more component. *)
Lemma join_push (stack : list string) (c : string) :
  Forall is_comp (c :: stack) ->
  join ("/" ++ String.concat "/" (rev stack)) c
  = "/" ++ String.concat "/" (rev (c :: stack)).
Proof.
  intros H; inversion H as [|? ? Hc Hs]; subst.
  unfold join; rewrite (comp_not_abs c Hc).
  destruct stack as [|c' below]; [reflexivity|].
  inversion Hs as [|? ? [Hc1 [_ Hc3]] _]; subst.
  assert (E : endswith_char ("/" ++ String.concat "/" (rev (c' :: below))) sep
              = false).
  { simpl rev; destruct (rev below) as [|y l].
    - simpl app; simpl String.concat; now apply endswith_app_comp.
    - rewrite concat_snoc by discriminate.
      generalize (String.concat "/" (y :: l)); intros t.
      replace ("/" ++ t ++ "/" ++ c') with (("/" ++ t ++ "/") ++ c')
        by (now rewrite !append_assoc).
      now apply endswith_app_comp. }
  rewrite E.
  change ("/" ++ String.concat "/" (rev (c' :: below)) =? "") with false.
  cbn [orb].
  change (rev (c :: c' :: below)) with (rev (c' :: below) ++ [c])%list.
  rewrite concat_snoc; [reflexivity|].
  simpl; destruct (rev below); discriminate.
Qed.

Section NoLinks.
Variable fs : filesystem.
Variable cwd : string.
Hypothesis link_free : no_links fs = true.

Lemma node_no_link (k target : string) : node_at fs k <> Some (Link target).
Proof.
  revert link_free; unfold no_links.
  induction fs as [|[k' n] fs' IH]; simpl; [discriminate|].
  intros H; apply andb_true_iff in H; destruct H as [Hn Hfs].
  destruct (k' =? k); [|now apply IH].
  intros [= ->]; discriminate Hn.
Qed.

Lemma lstat_no_link (p target : string) : lstat fs cwd p <> Some (Link target).
Proof.
  unfold lstat; destruct (p =? ""); [discriminate | apply node_no_link].
Qed.

(** Without links the loop of [_joinrealpath] joins the names. *)
Lemma loop_joins (resolve : string -> string -> seen_t -> string * bool * seen_t)
  (seen : seen_t) (names : list string) :
  Forall is_comp names ->
  Forall (fun c => c <> "..") names ->
  forall stack,
    Forall is_comp stack ->
    joinrealpath_loop fs cwd resolve names
      ("/" ++ String.concat "/" (rev stack)) seen
    = ("/" ++ String.concat "/" (rev (rev names ++ stack)), true, seen).
Proof.
  induction names as [|name names IH]; intros Hc Hd stack Hs; [reflexivity|].
  inversion Hc as [|? ? Hn Hc']; inversion Hd as [|? ? Hn' Hd']; subst.
  cbn [joinrealpath_loop].
  destruct Hn as [N1 [N2 N3]].
  apply String.eqb_neq in N1, N2, Hn'; rewrite N1, N2, Hn'; cbn [orb].
  apply String.eqb_neq in N1, N2.
  rewrite (join_push stack name) by (constructor; [now repeat split | exact Hs]).
  assert (Hnext : joinrealpath_loop fs cwd resolve names
                    ("/" ++ String.concat "/" (rev (name :: stack))) seen
                  = ("/" ++ String.concat "/" (rev (rev (name :: names) ++ stack)),
                     true, seen)).
  { rewrite (IH Hc' Hd' (name :: stack))
      by (constructor; [now repeat split | exact Hs]).
    simpl rev at 3; now rewrite <- app_assoc. }
  destruct (lstat fs cwd ("/" ++ String.concat "/" (rev (name :: stack))))
    as [[| |target]|] eqn:E; try exact Hnext.
  now apply lstat_no_link in E.
Qed.

(** Without links [realpath] leaves a normalized absolute path with one
    leading separator as it is. *)
Lemma realpath_without_links (stack : list string) :
  clean 1 stack ->
  realpath_of fs cwd ("/" ++ String.concat "/" (rev stack))
  = "/" ++ String.concat "/" (rev stack).
Proof.
  intros Hclean; pose proof Hclean as [Hc Hd].
  unfold realpath_of, realpath_fuel; cbn [joinrealpath].
  rewrite (isabs_cons (String.concat "/" (rev stack))
           : isabs ("/" ++ String.concat "/" (rev stack)) = true).
  change (tail ("/" ++ String.concat "/" (rev stack)))
    with (String.concat "/" (rev stack)).
  assert (Hloop : fst (fst (joinrealpath_loop fs cwd
                              (joinrealpath fs cwd (2 * List.length fs))
                              (split sep (String.concat "/" (rev stack))) "/" []))
                  = "/" ++ String.concat "/" (rev stack)).
  { destruct stack as [|c below]; [reflexivity|].
    rewrite split_concat;
      [| simpl; destruct (rev below); discriminate
       | apply (rev_clean_comps 1), Hclean].
    rewrite (loop_joins _ [] (rev (c :: below))
               (Forall_rev Hc) (Forall_rev Hd) [] (Forall_nil _)).
    now rewrite app_nil_r, rev_involutive. }
  rewrite Hloop; unfold abspath.
  rewrite (isabs_cons (String.concat "/" (rev stack))
           : isabs ("/" ++ String.concat "/" (rev stack)) = true).
  apply (normpath_built 1 stack); [lia | exact Hclean | discriminate].
Qed.

End NoLinks.

(** The literal path in a process with an absolute working directory. *)
Lemma literal_shape (P : process) (p : string) :
  isabs (cwd P) = true ->
  startswith (literal P p) "//" = false ->
  exists stack,
    clean 1 stack /\ literal P p = "/" ++ String.concat "/" (rev stack).
Proof.
  intros Hc Hs; pose proof (isabs_abspath (cwd P) (expand_home P p) Hc) as Ha.
  fold (literal P p) in Ha.
  unfold literal, abspath in Hs, Ha |- *.
  set (x := if isabs (expand_home P p) then expand_home P p
            else join (cwd P) (expand_home P p)) in *.
  destruct (normpath_cases x) as [E|[i [stack [Hi [Hclean [Hne E]]]]]];
    rewrite E in Hs, Ha |- *; [vm_compute in Ha; discriminate Ha|].
  destruct i as [|[|[|i]]]; [| | |lia].
  - exfalso; destruct (concat_plain_start 0 stack Hclean) as [H|[a [rest [H Hsep]]]].
    + apply Hne; simpl; exact H.
    + simpl in Ha; rewrite H in Ha; unfold isabs in Ha.
      rewrite startswith_sep, Ascii.eqb_sym, Hsep in Ha; discriminate Ha.
  - now exists stack.
  - exfalso; revert Hs.
    change (slashes 2 ++ String.concat "/" (rev stack))
      with (String sep (String sep (String.concat "/" (rev stack)))).
    change "//" with (String sep (String sep "")).
    rewrite !startswith_cons, startswith_nil; discriminate.
Qed.



(** Two leading separators: [normpath] keeps them, [realpath] does not. *)
Example two_separators :
  literal sandbox "//sandbox" = "//sandbox"
  /\ canonical sandbox "//sandbox" = "/sandbox".
Proof. runs. Qed.

(** With a link the canonical form differs from the literal path. *)
Example link_resolved :
  literal jail "/allowed/alias/a.txt" = "/allowed/alias/a.txt"
  /\ canonical jail "/allowed/alias/a.txt" = "/allowed/real/a.txt".
Proof. runs. Qed.

End MoreRealpath.

(* ------------------------------------------------------------------ *)
(** * More on [search_files]: what is returned, case, the empty exclude
      pattern, a root that cannot be listed *)

Module MoreSearch.
Import PyStr PosixPath OS Sandbox Spec Scenario Way.
Import SearchFiles.

Section Results.
Variable M : messages.
Variable P : process.
Variables root_path pattern : string.
Variable exclude_patterns : list string.

Lemma body_checked (results : list string) (root : string)
  (dirs files : list string) (p : string) :
  In p (fst (search_body M P root_path pattern exclude_patterns
               results root dirs files)) ->
  In p results \/ checked_entry M P pattern p.
Proof.
  unfold search_body.
  destruct (validate_path M P root) eqn:Hv; simpl; [|now left].
  destruct (relpath (cwd P) root root_path); simpl; [|now left].
  destruct (kept_dirs P root_path exclude_patterns root dirs); simpl; [|now left].
  rewrite check_entries_filter, in_app_iff, in_map_iff.
  intros [H|[name [<- H]]]; [now left|right].
  apply filter_In in H; destruct H as [_ H].
  apply andb_true_iff in H; destruct H as [H1 H2].
  exists root, name; rewrite Hv; repeat split; assumption.
Qed.

Lemma walk_checked (depth : nat) :
  forall (top : string) (st : list string) (p : string),
    In p (walk_for (fs P) (cwd P) depth
            (search_body M P root_path pattern exclude_patterns) top st) ->
    In p st \/ checked_entry M P pattern p.
Proof.
  induction depth as [|depth IH]; intros top st p; simpl; [now left|].
  destruct (scan (fs P) (cwd P) top) as [[dirs nondirs]|]; [|now left].
  destruct (search_body M P root_path pattern exclude_patterns st top dirs nondirs)
    as [st' dirs'] eqn:Hb.
  assert (Hst' : forall q, In q st' -> In q st \/ checked_entry M P pattern q).
  { intros q Hq; apply (body_checked st top dirs nondirs q); now rewrite Hb. }
  clear Hb; revert st' Hst'.
  induction dirs' as [|d dirs' IHd]; intros st' Hst'; simpl; [apply Hst'|].
  apply IHd; intros q Hq.
  destruct (islink (fs P) (cwd P) (join top d)); [now apply Hst'|].
  apply IH in Hq; destruct Hq as [Hq|Hq]; [now apply Hst' | now right].
Qed.

End Results.



Lemma lower_char_idempotent (a : ascii) : lower_char (lower_char a) = lower_char a.
Proof. destruct a as [[] [] [] [] [] [] [] []]; reflexivity. Qed.

Lemma lower_idempotent (s : string) : lower (lower s) = lower s.
Proof.
  induction s as [|a s IH]; simpl; [reflexivity|].
  now rewrite lower_char_idempotent, IH.
Qed.

Lemma search_body_lower (M : messages) (P : process)
  (root_path pattern1 pattern2 : string) (exclude_patterns : list string) :
  lower pattern1 = lower pattern2 ->
  forall results root dirs files,
    search_body M P root_path pattern1 exclude_patterns results root dirs files
    = search_body M P root_path pattern2 exclude_patterns results root dirs files.
Proof.
  intros H results root dirs files; unfold search_body.
  destruct (validate_path M P root); [|reflexivity].
  destruct (relpath (cwd P) root root_path); [|reflexivity].
  destruct (kept_dirs P root_path exclude_patterns root dirs); [|reflexivity].
  now rewrite !check_entries_filter, H.
Qed.

(** X9.  The search does not distinguish case in the pattern: two
    patterns with the same lower-case form give the same result, and so
    do a pattern and its lower-case form. *)
Theorem search_ignores_case (M : messages) (P : process)
  (root_path pattern1 pattern2 : string) (exclude_patterns : list string) :
  lower pattern1 = lower pattern2 ->
  search_files M P root_path pattern1 exclude_patterns
  = search_files M P root_path pattern2 exclude_patterns
  /\ search_files M P root_path (lower pattern1) exclude_patterns
     = search_files M P root_path pattern1 exclude_patterns.
Proof.
  intros H; unfold search_files, search_files_upto; split.
  - apply walk_for_ext; now apply search_body_lower.
  - apply walk_for_ext; apply search_body_lower; apply lower_idempotent.
Qed.

Lemma search_ignores_case_witness :
  lower "FoO" = lower "fOo"
  /\ search_files english sandbox "/sandbox" "FoO" []
     = search_files english sandbox "/sandbox" "fOo" []
  /\ search_files english sandbox "/sandbox" (lower "FoO") []
     = search_files english sandbox "/sandbox" "FoO" [].
Proof.
  split; [reflexivity|].
  apply (search_ignores_case english sandbox "/sandbox" "FoO" "fOo" []).
  reflexivity.
Defined.

Section EmptyPattern.
Variable P : process.
Variable root_path : string.
Variable exclude_patterns : list string.
Hypothesis has_empty : In "" exclude_patterns.

Lemma excluded_by_empty (root d : string) :
  root <> "" -> excluded P root_path exclude_patterns root d = Some true.
Proof.
  intros Hr; unfold excluded.
  destruct exclude_patterns as [|e l] eqn:E; [destruct has_empty|].
  destruct (relpath (cwd P) (join root d) root_path) as [rel|] eqn:Hrel.
  - f_equal; apply existsb_exists; exists ""; split; [exact has_empty|].
    unfold startswith; destruct rel; reflexivity.
  - apply relpath_none in Hrel; now apply join_nonempty in Hrel.
Qed.

Lemma kept_dirs_by_empty (root : string) (dirs : list string) :
  root <> "" -> kept_dirs P root_path exclude_patterns root dirs = Some [].
Proof.
  intros Hr; induction dirs as [|d dirs IH]; simpl; [reflexivity|].
  now rewrite (excluded_by_empty root d Hr), IH.
Qed.

End EmptyPattern.

(** X10.  An empty string among the exclude patterns prunes every
    subdirectory: below a root that passes [validate_path] the search
    returns, of the entries of the root that are no directories, those
    that pass and match, and nothing else. *)
Theorem empty_exclude_pattern_stops_descent (M : messages) (P : process)
  (root_path pattern : string) (exclude_patterns dirs nondirs : list string) :
  In "" exclude_patterns ->
  is_ok (validate_path M P root_path) = true ->
  scan (fs P) (cwd P) root_path = Some (dirs, nondirs) ->
  search_files M P root_path pattern exclude_patterns
  = map (join root_path)
      (filter (fun name =>
                 is_ok (validate_path M P (join root_path name))
                 && contains (lower pattern) (lower name)) nondirs).
Proof.
  intros He Hv Hs; pose proof (scan_nonempty P _ _ Hs) as Hr.
  unfold search_files, search_files_upto; simpl; rewrite Hs.
  unfold search_body.
  destruct (validate_path M P root_path); [|discriminate Hv].
  destruct (relpath (cwd P) root_path root_path) eqn:Hrel;
    [|now apply relpath_none in Hrel].
  rewrite (kept_dirs_by_empty P root_path exclude_patterns He root_path dirs Hr).
  simpl; apply check_entries_filter.
Qed.

Lemma empty_exclude_pattern_stops_descent_witness :
  In "" ["tmp"; ""]
  /\ is_ok (validate_path english sandbox "/sandbox") = true
  /\ scan sandbox_disk "/" "/sandbox" = Some (["sub"; "notes"], ["foo2.txt"])
  /\ search_files english sandbox "/sandbox" "o" ["tmp"; ""]
     = map (join "/sandbox")
         (filter (fun name =>
                    is_ok (validate_path english sandbox (join "/sandbox" name))
                    && contains (lower "o") (lower name)) ["foo2.txt"]).
Proof.
  split; [right; now left|].
  split; [vm_compute; reflexivity|].
  split; [vm_compute; reflexivity|].
  apply (empty_exclude_pattern_stops_descent english sandbox "/sandbox" "o"
           ["tmp"; ""] ["sub"; "notes"] ["foo2.txt"]).
  - right; now left.
  - vm_compute; reflexivity.
  - vm_compute; reflexivity.
Defined.

Example without_the_empty_pattern :
  search_files english sandbox "/sandbox" "o" ["tmp"]
  = ["/sandbox/notes"; "/sandbox/foo2.txt"; "/sandbox/sub/foo.txt"].
Proof. run. Qed.

(** X11.  On a root that passes [validate_path] and cannot be listed (a
    file, a directory that is gone), the two walkers differ:
    [search_files_tool] answers that nothing matches, [directory_tree]
    raises the [OSError] of [os.listdir]. *)
Theorem unlistable_root (M : messages) (P : process)
  (path valid_path pattern : string) (exclude_patterns : list string)
  (depth : nat) :
  validate_path M P path = Ok valid_path ->
  listdir (fs P) (cwd P) valid_path = None ->
  search_files_tool M P path pattern exclude_patterns = Returns (no_matches_text M)
  /\ directory_tree M P (S depth) path = Raises OSError.
Proof.
  intros Hv Hl; split.
  - unfold search_files_tool; rewrite Hv.
    unfold search_files, search_files_upto; simpl.
    unfold scan; now rewrite Hl.
  - unfold directory_tree; rewrite Hv; simpl; now rewrite Hl.
Qed.

Lemma unlistable_root_witness :
  validate_path english jail "/allowed/real/a.txt" = Ok "/allowed/real/a.txt"
  /\ listdir jail_disk "/" "/allowed/real/a.txt" = None
  /\ search_files_tool english jail "/allowed/real/a.txt" "a" []
     = Returns "No matches found"
  /\ directory_tree english jail 3 "/allowed/real/a.txt" = Raises OSError.
Proof.
  split; [vm_compute; reflexivity|].
  split; [vm_compute; reflexivity|].
  apply (unlistable_root english jail "/allowed/real/a.txt" "/allowed/real/a.txt"
           "a" [] 2); vm_compute; reflexivity.
Defined.

End MoreSearch.

(* ------------------------------------------------------------------ *)
(** * What [search_files] finds *)

Module SearchFinds.
Import PyStr PosixPath OS Sandbox Spec Scenario Way Followed.
Import SearchFiles.

Section Finds.
Variable M : messages.
Variable P : process.
Variables root_path pattern : string.
Variable exclude_patterns : list string.

Let body := search_body M P root_path pattern exclude_patterns.

Lemma body_keeps (results : list string) (root : string)
  (dirs files : list string) (p : string) :
  In p results -> In p (fst (body results root dirs files)).
Proof.
  intros H; unfold body, search_body.
  destruct (validate_path M P root); [|exact H].
  destruct (relpath (cwd P) root root_path); [|exact H].
  destruct (kept_dirs P root_path exclude_patterns root dirs); [|exact H].
  cbn [fst]; rewrite check_entries_filter; apply in_or_app; now left.
Qed.

Lemma fold_keeps {A : Type} (f : list string -> A -> list string) (p : string) :
  (forall s a, In p s -> In p (f s a)) ->
  forall l s, In p s -> In p (fold_left f l s).
Proof.
  intros Hf; induction l as [|a l IH]; intros s H; simpl; [exact H|].
  apply IH, Hf, H.
Qed.

Lemma fold_finds {A : Type} (f : list string -> A -> list string) (p : string)
  (d : A) :
  (forall s a, In p s -> In p (f s a)) ->
  (forall s, In p (f s d)) ->
  forall l s, In d l -> In p (fold_left f l s).
Proof.
  intros Hk Hd; induction l as [|a l IH]; intros s H; simpl; [destruct H|].
  destruct H as [->|H]; [apply fold_keeps; [exact Hk | apply Hd] | now apply IH].
Qed.

(** The walk only appends. *)
Lemma walk_keeps (depth : nat) :
  forall (top : string) (st : list string) (p : string),
    In p st -> In p (walk_for (fs P) (cwd P) depth body top st).
Proof.
  induction depth as [|depth IH]; intros top st p H; simpl; [exact H|].
  destruct (scan (fs P) (cwd P) top) as [[dirs nondirs]|]; [|exact H].
  destruct (body st top dirs nondirs) as [st' dirs'] eqn:Hb.
  apply fold_keeps.
  - intros s d Hs; destruct (islink (fs P) (cwd P) (join top d));
      [exact Hs | now apply IH].
  - change st' with (fst (st', dirs')); rewrite <- Hb; now apply body_keeps.
Qed.

(** What the body appends in a directory that passes. *)
Lemma body_finds (results : list string) (root : string)
  (entries : list string) (name : string) :
  listdir (fs P) (cwd P) root = Some entries ->
  is_ok (validate_path M P root) = true ->
  In name entries ->
  (isdir (fs P) (cwd P) (join root name) = true ->
   excluded P root_path exclude_patterns root name = Some false) ->
  is_ok (validate_path M P (join root name)) = true ->
  contains (lower pattern) (lower name) = true ->
  In (join root name)
    (fst (body results root
            (filter (fun n => isdir (fs P) (cwd P) (join root n)) entries)
            (filter (fun n => negb (isdir (fs P) (cwd P) (join root n))) entries))).
Proof.
  intros Hl Hv Hin Hex Hvn Hc.
  assert (Hr : root <> "").
  { apply (scan_nonempty P root
             (filter (fun n => isdir (fs P) (cwd P) (join root n)) entries,
              filter (fun n => negb (isdir (fs P) (cwd P) (join root n))) entries)).
    unfold scan; now rewrite Hl. }
  unfold body, search_body.
  destruct (validate_path M P root); [|discriminate Hv].
  destruct (relpath (cwd P) root root_path) eqn:Hrel;
    [|now apply relpath_none in Hrel].
  destruct (kept_dirs P root_path exclude_patterns root
              (filter (fun n => isdir (fs P) (cwd P) (join root n)) entries))
    as [kept|] eqn:Hk; [|now apply kept_dirs_defined in Hk].
  cbn [fst]; rewrite check_entries_filter.
  apply in_or_app; right; apply in_map; apply filter_In; split.
  - apply in_or_app.
    destruct (isdir (fs P) (cwd P) (join root name)) eqn:Hd.
    + left; apply (kept_dirs_in M P root_path pattern exclude_patterns _ _ _ name Hk).
      split; [apply filter_In; now split | now apply Hex].
    + right; apply filter_In; split; [exact Hin | now rewrite Hd].
  - now rewrite Hvn, Hc.
Qed.

(** What the body leaves in [dirs] for the walk. *)
Lemma body_leaves (results : list string) (root : string)
  (entries : list string) (d : string) :
  listdir (fs P) (cwd P) root = Some entries ->
  In d entries ->
  isdir (fs P) (cwd P) (join root d) = true ->
  (is_ok (validate_path M P root) = true ->
   excluded P root_path exclude_patterns root d = Some false) ->
  In d
    (snd (body results root
            (filter (fun n => isdir (fs P) (cwd P) (join root n)) entries)
            (filter (fun n => negb (isdir (fs P) (cwd P) (join root n))) entries))).
Proof.
  intros Hl Hin Hd Hex.
  assert (Hdirs : In d (filter (fun n => isdir (fs P) (cwd P) (join root n)) entries))
    by (apply filter_In; now split).
  assert (Hr : root <> "").
  { apply (scan_nonempty P root
             (filter (fun n => isdir (fs P) (cwd P) (join root n)) entries,
              filter (fun n => negb (isdir (fs P) (cwd P) (join root n))) entries)).
    unfold scan; now rewrite Hl. }
  unfold body, search_body.
  destruct (validate_path M P root); [|exact Hdirs].
  destruct (relpath (cwd P) root root_path) eqn:Hrel; [|exact Hdirs].
  destruct (kept_dirs P root_path exclude_patterns root
              (filter (fun n => isdir (fs P) (cwd P) (join root n)) entries))
    as [kept|] eqn:Hk; [|exact Hdirs].
  cbn [snd]; apply (kept_dirs_in M P root_path pattern exclude_patterns _ _ _ d Hk).
  split; [exact Hdirs | now apply Hex].
Qed.

Lemma walk_finds (depth : nat) :
  forall (top : string) (ds : list string) (st : list string)
         (entries : list string) (name : string),
    (List.length ds < depth)%nat ->
    follows M P root_path exclude_patterns top ds ->
    listdir (fs P) (cwd P) (descend top ds) = Some entries ->
    is_ok (validate_path M P (descend top ds)) = true ->
    In name entries ->
    (isdir (fs P) (cwd P) (join (descend top ds) name) = true ->
     excluded P root_path exclude_patterns (descend top ds) name = Some false) ->
    is_ok (validate_path M P (join (descend top ds) name)) = true ->
    contains (lower pattern) (lower name) = true ->
    In (join (descend top ds) name)
      (walk_for (fs P) (cwd P) depth body top st).
Proof.
  induction depth as [|depth IH]; intros top ds st entries name Hlen Hf Hl Hv Hin
    Hex Hvn Hc; [inversion Hlen|].
  assert (Hkeep : forall s d,
             In (join (descend top ds) name) s ->
             In (join (descend top ds) name)
               (if islink (fs P) (cwd P) (join top d) then s
                else walk_for (fs P) (cwd P) depth body (join top d) s)).
  { intros s d Hs; destruct (islink (fs P) (cwd P) (join top d));
      [exact Hs | now apply walk_keeps]. }
  cbn [walk_for]; destruct ds as [|d ds].
  - cbn [descend fold_left] in *.
    unfold scan; rewrite Hl.
    destruct (body st top
                (filter (fun n => isdir (fs P) (cwd P) (join top n)) entries)
                (filter (fun n => negb (isdir (fs P) (cwd P) (join top n))) entries))
      as [st' dirs'] eqn:Hb.
    apply fold_keeps; [exact Hkeep|].
    change st' with (fst (st', dirs')); rewrite <- Hb.
    now apply body_finds.
  - destruct Hf as [[entries0 [Hl0 Hin0]] [Hd0 [Hlink0 [Hex0 Hf]]]].
    unfold scan; rewrite Hl0.
    destruct (body st top
                (filter (fun n => isdir (fs P) (cwd P) (join top n)) entries0)
                (filter (fun n => negb (isdir (fs P) (cwd P) (join top n))) entries0))
      as [st' dirs'] eqn:Hb.
    apply (fold_finds _ _ d); [exact Hkeep | |].
    + intros s; rewrite Hlink0.
      apply (IH (join top d) ds s entries name); try assumption.
      simpl in Hlen; lia.
    + change dirs' with (snd (st', dirs')); rewrite <- Hb.
      now apply body_leaves.
Qed.

End Finds.

(** X12.  [search_files] finds every entry it should.  Let the walk from
    the starting root go down a way of subdirectories (listed
    directories, no links, not excluded where the directory above
    passes [validate_path]), no longer than the file system has nodes,
    to a directory that passes [validate_path]: an entry of that
    directory that passes [validate_path] and holds the pattern in its
    name, case aside, is among the results, unless it is a directory
    that an exclude pattern matches. *)
Theorem search_files_finds (M : messages) (P : process)
  (root_path pattern : string) (exclude_patterns : list string)
  (ds entries : list string) (name : string) :
  (List.length ds <= List.length (fs P))%nat ->
  follows M P root_path exclude_patterns root_path ds ->
  listdir (fs P) (cwd P) (descend root_path ds) = Some entries ->
  is_ok (validate_path M P (descend root_path ds)) = true ->
  In name entries ->
  (isdir (fs P) (cwd P) (join (descend root_path ds) name) = true ->
   excluded P root_path exclude_patterns (descend root_path ds) name = Some false) ->
  is_ok (validate_path M P (join (descend root_path ds) name)) = true ->
  contains (lower pattern) (lower name) = true ->
  In (join (descend root_path ds) name)
    (search_files M P root_path pattern exclude_patterns).
Proof.
  intros Hlen Hf Hl Hv Hin Hex Hvn Hc.
  unfold search_files, search_files_upto.
  apply (walk_finds M P root_path pattern exclude_patterns
           (S (List.length (fs P))) root_path ds [] entries name);
    try assumption; lia.
Qed.

Lemma search_files_finds_witness :
  (List.length ["sub"] <= List.length (fs sandbox))%nat
  /\ follows english sandbox "/sandbox" ["notes"] "/sandbox" ["sub"]
  /\ listdir (fs sandbox) (cwd sandbox) (descend "/sandbox" ["sub"])
     = Some ["foo.txt"]
  /\ join (descend "/sandbox" ["sub"]) "foo.txt" = "/sandbox/sub/foo.txt"
  /\ In (join (descend "/sandbox" ["sub"]) "foo.txt")
       (search_files english sandbox "/sandbox" "FOO" ["notes"]).
Proof.
  assert (Hf : follows english sandbox "/sandbox" ["notes"] "/sandbox" ["sub"]).
  { split; [exists ["sub"; "foo2.txt"; "notes"]; split;
            [vm_compute; reflexivity | now left]|].
    split; [vm_compute; reflexivity|].
    split; [vm_compute; reflexivity|].
    split; [intros _; vm_compute; reflexivity | exact I]. }
  split; [simpl; lia|]. split; [exact Hf|].
  split; [vm_compute; reflexivity|]. split; [vm_compute; reflexivity|].
  apply (search_files_finds english sandbox "/sandbox" "FOO" ["notes"]
           ["sub"] ["foo.txt"] "foo.txt").
  - simpl; lia.
  - exact Hf.
  - vm_compute; reflexivity.
  - vm_compute; reflexivity.
  - now left.
  - intros _; vm_compute; reflexivity.
  - vm_compute; reflexivity.
  - vm_compute; reflexivity.
Defined.

End SearchFinds.

(* ------------------------------------------------------------------ *)
(** * More on [directory_tree] and [list_directory] *)

Module MoreTree.
Import PyStr PosixPath OS Sandbox Spec Scenario Tools.
Import DirectoryTree.

Section Nodes.
Variable M : messages.
Variable P : process.

Lemma entries_nodes (depth : nat) (current_path : string) (entries : list string) :
  forall result nodes,
    fold_left (tree_entry M P (build_tree M P depth) current_path) entries
      (Returns result) = Returns nodes ->
    exists new,
      nodes = (result ++ new)%list
      /\ Forall2 (node_for M P depth current_path)
           (passing M P current_path entries) new.
Proof.
  induction entries as [|entry entries IH]; intros result nodes; cbn [fold_left].
  - intros [= <-]; exists []; split; [now rewrite app_nil_r | constructor].
  - destruct (tree_entry_cases M P (build_tree M P depth) current_path result entry)
      as [[Hv ->]|[[Hv [Hd ->]]|[[Hv [Hd [children [Hc ->]]]]|[Hv [_ [e [_ ->]]]]]]];
      unfold passing; cbn [filter]; rewrite Hv;
      fold (passing M P current_path entries).
    + apply IH.
    + intros H; apply IH in H; destruct H as [new [-> Hn]].
      eexists; split; [now rewrite <- app_assoc|].
      constructor; [right; now split | exact Hn].
    + intros H; apply IH in H; destruct H as [new [-> Hn]].
      eexists; split; [now rewrite <- app_assoc|].
      constructor; [left; split; [exact Hd | now exists children] | exact Hn].
    + rewrite entries_after_raise; discriminate.
Qed.

(** Two calls for the children that agree wherever the first does not
    run out of nesting make the same loop, unless it runs out. *)
Lemma entries_deeper (build1 build2 : string -> reply (list json))
  (current_path : string) :
  (forall p r, build1 p = r -> r <> Raises RecursionError -> build2 p = r) ->
  forall entries acc r,
    fold_left (tree_entry M P build1 current_path) entries acc = r ->
    r <> Raises RecursionError ->
    fold_left (tree_entry M P build2 current_path) entries acc = r.
Proof.
  intros Hb; induction entries as [|entry entries IH]; intros acc r; cbn [fold_left];
    [tauto|].
  intros H Hr; destruct acc as [result|e].
  - assert (Hstep : tree_entry M P build1 current_path (Returns result) entry
                    = Raises RecursionError
                    \/ tree_entry M P build2 current_path (Returns result) entry
                       = tree_entry M P build1 current_path (Returns result) entry).
    { unfold tree_entry.
      destruct (validate_path M P (join current_path entry)); [|now right].
      destruct (isdir (fs P) (cwd P) (join current_path entry)); [|now right].
      destruct (build1 (join current_path entry)) as [children|e] eqn:E.
      - right; now rewrite (Hb _ _ E ltac:(discriminate)).
      - destruct e; try (right; now rewrite (Hb _ _ E ltac:(discriminate))).
        now left. }
    destruct Hstep as [Hs|Hs].
    + rewrite Hs, entries_after_raise in H; congruence.
    + rewrite Hs; now apply IH.
  - now apply IH.
Qed.

Lemma build_tree_succ (depth : nat) :
  forall current_path r,
    build_tree M P depth current_path = r ->
    r <> Raises RecursionError ->
    build_tree M P (S depth) current_path = r.
Proof.
  induction depth as [|depth IH]; intros current_path r.
  - simpl; intros <- H; now elim H.
  - intros H Hr; revert H.
    change (build_tree M P (S (S depth)) current_path)
      with (match listdir (fs P) (cwd P) current_path with
            | None => Raises OSError
            | Some entries =>
                fold_left (tree_entry M P (build_tree M P (S depth)) current_path)
                  entries (Returns [])
            end).
    change (build_tree M P (S depth) current_path)
      with (match listdir (fs P) (cwd P) current_path with
            | None => Raises OSError
            | Some entries =>
                fold_left (tree_entry M P (build_tree M P depth) current_path)
                  entries (Returns [])
            end).
    destruct (listdir (fs P) (cwd P) current_path) as [entries|]; [|tauto].
    intros H; now apply (entries_deeper (build_tree M P depth)).
Qed.

End Nodes.

(** X13.  The result of [build_tree] names, in order, the entries that
    pass [validate_path]; an entry that is a directory has the type
    [directory] and as [children] what [build_tree] returns for it, any
    other entry has the type [file] and no [children]. *)
Theorem build_tree_nodes (M : messages) (P : process) (depth : nat)
  (current_path : string) (nodes : list json) :
  build_tree M P (S depth) current_path = Returns nodes ->
  exists entries,
    listdir (fs P) (cwd P) current_path = Some entries
    /\ Forall2 (node_for M P depth current_path)
         (passing M P current_path entries) nodes.
Proof.
  simpl.
  destruct (listdir (fs P) (cwd P) current_path) as [entries|]; [|discriminate].
  intros H; exists entries; split; [reflexivity|].
  apply entries_nodes in H; destruct H as [new [-> H]]; exact H.
Qed.

Lemma build_tree_nodes_witness :
  exists nodes,
    build_tree english jail 3 "/allowed" = Returns nodes
    /\ exists entries,
         listdir jail_disk "/" "/allowed" = Some entries
         /\ Forall2 (node_for english jail 2 "/allowed")
              (passing english jail "/allowed" entries) nodes.
Proof.
  eexists; split; [vm_compute; reflexivity|].
  apply (build_tree_nodes english jail 2 "/allowed"); vm_compute; reflexivity.
Defined.

(** X14.  More room for nested calls does not change what [build_tree]
    gives: a tree, or the [OSError] of a listing, found with [depth]
    nested calls is found with any larger number. *)
Theorem build_tree_deeper (M : messages) (P : process) (depth more : nat)
  (current_path : string) (r : reply (list json)) :
  build_tree M P depth current_path = r ->
  r <> Raises RecursionError ->
  build_tree M P (depth + more) current_path = r.
Proof.
  intros H Hr; induction more as [|more IH].
  - now rewrite Nat.add_0_r.
  - rewrite Nat.add_succ_r; now apply build_tree_succ.
Qed.

Lemma build_tree_deeper_witness :
  exists nodes,
    build_tree english sandbox 2 "/sandbox" = Returns nodes
    /\ build_tree english sandbox (2 + 40) "/sandbox" = Returns nodes.
Proof.
  eexists; split; [vm_compute; reflexivity|].
  apply (build_tree_deeper english sandbox 2 40 "/sandbox");
    [vm_compute; reflexivity | discriminate].
Defined.

Example too_shallow :
  build_tree english sandbox 1 "/sandbox" = Raises RecursionError.
Proof. run. Qed.

Section Lines.
Variable c : ascii.

Lemma split_one (s : string) : lacks c s = true -> split c s = [s].
Proof.
  induction s as [|a s IH]; simpl; [reflexivity|].
  intros H; apply andb_true_iff in H; destruct H as [Ha Hs].
  apply negb_true_iff in Ha; rewrite Ha, (IH Hs); reflexivity.
Qed.

Lemma split_line (s t : string) :
  lacks c s = true -> split c (s ++ String c t) = s :: split c t.
Proof.
  induction s as [|a s IH]; simpl.
  - intros _; now rewrite Ascii.eqb_refl.
  - intros H; apply andb_true_iff in H; destruct H as [Ha Hs].
    apply negb_true_iff in Ha; rewrite Ha, (IH Hs); reflexivity.
Qed.

Lemma split_lines (lines : list string) :
  lines <> [] ->
  Forall (fun l => lacks c l = true) lines ->
  split c (String.concat (String c "") lines) = lines.
Proof.
  induction lines as [|l lines IH]; [congruence|]; intros _ H.
  inversion H as [|? ? Hl Hr]; subst.
  destruct lines as [|l' lines].
  - simpl; now apply split_one.
  - change (String.concat (String c "") (l :: l' :: lines))
      with (l ++ String c (String.concat (String c "") (l' :: lines))).
    rewrite (split_line _ _ Hl), IH; [reflexivity | discriminate | exact Hr].
Qed.

Lemma lacks_app (s t : string) : lacks c (s ++ t) = lacks c s && lacks c t.
Proof.
  induction s as [|a s IH]; simpl; [reflexivity|].
  now rewrite IH, andb_assoc.
Qed.

End Lines.

Lemma entry_line_lacks_newline (P : process) (valid_path entry : string) :
  lacks newline_char entry = true ->
  lacks newline_char (entry_line P valid_path entry) = true.
Proof.
  intros H; unfold entry_line.
  destruct (isdir (fs P) (cwd P) (join valid_path entry));
    rewrite !lacks_app, H; reflexivity.
Qed.

(** X15.  [list_directory] gives one line for every entry of the
    directory at the validated path, [[DIR] name] or [[FILE] name], in
    listing order: when no name holds a newline, splitting the text at
    the newlines gives these lines back; an empty directory gives the
    empty text. *)
Theorem list_directory_lines (M : messages) (P : process) (path text : string) :
  list_directory M P path = Returns text ->
  exists valid_path entries,
    validate_path M P path = Ok valid_path
    /\ listdir (fs P) (cwd P) valid_path = Some entries
    /\ (entries = [] -> text = "")
    /\ (entries <> [] ->
        Forall (fun entry => lacks newline_char entry = true) entries ->
        split newline_char text = map (entry_line P valid_path) entries).
Proof.
  unfold list_directory.
  destruct (validate_path M P path) as [valid_path|] eqn:Hv; [|discriminate].
  destruct (listdir (fs P) (cwd P) valid_path) as [entries|] eqn:Hd; [|discriminate].
  intros [= <-]; exists valid_path, entries.
  split; [reflexivity|]. split; [exact Hd|]. split.
  - intros ->; reflexivity.
  - intros Hne Hl; apply (split_lines newline_char).
    + destruct entries; [congruence | discriminate].
    + apply Forall_map; eapply Forall_impl; [|exact Hl].
      intros entry; apply entry_line_lacks_newline.
Qed.

Lemma list_directory_lines_witness :
  list_directory english jail "/allowed"
  = Returns (String.concat newline
               ["[DIR] real"; "[DIR] alias"; "[DIR] link"; "[DIR] sib"])
  /\ exists valid_path entries,
       validate_path english jail "/allowed" = Ok valid_path
       /\ listdir (fs jail) (cwd jail) valid_path = Some entries
       /\ (entries = [] ->
           String.concat newline
             ["[DIR] real"; "[DIR] alias"; "[DIR] link"; "[DIR] sib"] = "")
       /\ (entries <> [] ->
           Forall (fun entry => lacks newline_char entry = true) entries ->
           split newline_char
             (String.concat newline
                ["[DIR] real"; "[DIR] alias"; "[DIR] link"; "[DIR] sib"])
           = map (entry_line jail valid_path) entries).
Proof.
  split; [vm_compute; reflexivity|].
  apply (list_directory_lines english jail "/allowed"); vm_compute; reflexivity.
Defined.

(** X16.  [list_directory] does not validate the entries, [directory_tree]
    does: on the same path, the nodes of the tree stand, in order, for
    the listed entries that pass [validate_path], and a node is a
    directory node exactly when the line of its entry starts with
    [[DIR]]. *)
Theorem tree_agrees_with_listing (M : messages) (P : process) (depth : nat)
  (path valid_path : string) (entries : list string) (nodes : list json) :
  validate_path M P path = Ok valid_path ->
  listdir (fs P) (cwd P) valid_path = Some entries ->
  directory_tree M P (S depth) path = Returns (JArray nodes) ->
  list_directory M P path
  = Returns (String.concat newline (map (entry_line P valid_path) entries))
  /\ Forall2
       (fun entry node =>
          (entry_line P valid_path entry = "[DIR] " ++ entry
           /\ exists children,
                node = JObject [("name", JString entry);
                                ("type", JString "directory");
                                ("children", JArray children)])
          \/ (entry_line P valid_path entry = "[FILE] " ++ entry
              /\ node = JObject [("name", JString entry);
                                 ("type", JString "file")]))
       (passing M P valid_path entries) nodes.
Proof.
  intros Hv Hl Ht; split.
  - unfold list_directory; now rewrite Hv, Hl.
  - unfold directory_tree in Ht; rewrite Hv in Ht.
    destruct (build_tree M P (S depth) valid_path) as [tree_data|e] eqn:E;
      [|discriminate].
    injection Ht as <-.
    simpl in E; rewrite Hl in E.
    apply entries_nodes in E; destruct E as [new [-> H]]; simpl.
    eapply Forall2_impl; [|exact H].
    intros entry node [[Hd [children [_ ->]]]|[Hd ->]]; unfold entry_line; rewrite Hd.
    + left; split; [reflexivity | now exists children].
    + right; split; reflexivity.
Qed.

Lemma tree_agrees_with_listing_witness :
  exists nodes,
    validate_path english jail "/allowed" = Ok "/allowed"
    /\ listdir (fs jail) (cwd jail) "/allowed"
       = Some ["real"; "alias"; "link"; "sib"]
    /\ directory_tree english jail 3 "/allowed" = Returns (JArray nodes)
    /\ passing english jail "/allowed" ["real"; "alias"; "link"; "sib"]
       = ["real"; "alias"; "sib"]
    /\ list_directory english jail "/allowed"
       = Returns (String.concat newline
                    (map (entry_line jail "/allowed")
                       ["real"; "alias"; "link"; "sib"]))
    /\ Forall2
         (fun entry node =>
            (entry_line jail "/allowed" entry = "[DIR] " ++ entry
             /\ exists children,
                  node = JObject [("name", JString entry);
                                  ("type", JString "directory");
                                  ("children", JArray children)])
            \/ (entry_line jail "/allowed" entry = "[FILE] " ++ entry
                /\ node = JObject [("name", JString entry);
                                   ("type", JString "file")]))
         (passing english jail "/allowed" ["real"; "alias"; "link"; "sib"]) nodes.
Proof.
  assert (Ht : exists nodes,
             directory_tree english jail 3 "/allowed" = Returns (JArray nodes))
    by (eexists; vm_compute; reflexivity).
  destruct Ht as [nodes Ht]; exists nodes.
  split; [vm_compute; reflexivity|].
  split; [vm_compute; reflexivity|].
  split; [exact Ht|].
  split; [vm_compute; reflexivity|].
  apply (tree_agrees_with_listing english jail 2 "/allowed" "/allowed"
           ["real"; "alias"; "link"; "sib"] nodes);
    [vm_compute; reflexivity | vm_compute; reflexivity | exact Ht].
Defined.

(** X17.  The text of [list_allowed_directories] is the heading and one
    line for each allowed directory, in the order of the command line:
    when no directory holds a newline, splitting the text at the
    newlines gives the heading and the allowed directories back. *)
Theorem allowed_directories_listed (P : process) :
  allowed_directories P <> [] ->
  Forall (fun dir => lacks newline_char dir = true) (allowed_directories P) ->
  split newline_char (list_allowed_directories P)
  = "Allowed directories:" :: allowed_directories P.
Proof.
  intros Hne Hl; unfold list_allowed_directories.
  change ("Allowed directories:" ++ newline
          ++ String.concat newline (allowed_directories P))
    with ("Allowed directories:"
          ++ String newline_char (String.concat newline (allowed_directories P))).
  rewrite (split_line newline_char) by reflexivity.
  f_equal; now apply (split_lines newline_char).
Qed.

Lemma allowed_directories_listed_witness :
  allowed_directories jail <> []
  /\ Forall (fun dir => lacks newline_char dir = true) (allowed_directories jail)
  /\ split newline_char (list_allowed_directories jail)
     = "Allowed directories:" :: allowed_directories jail.
Proof.
  assert (H1 : allowed_directories jail <> []) by (vm_compute; discriminate).
  assert (H2 : Forall (fun dir => lacks newline_char dir = true)
                 (allowed_directories jail))
    by (vm_compute; repeat constructor).
  split; [exact H1|]. split; [exact H2|].
  apply (allowed_directories_listed jail H1 H2).
Defined.

End MoreTree.

(* ------------------------------------------------------------------ *)
(** * More on the thinking server: what a call records, the branches,
      a sequence of calls, the tool [sequentialthinking] *)

Module MoreThinking.
Import Thinking ThinkingTool ThinkingFacts.

(** [process_thought] on an input that passes validation. *)
Lemma process_thought_valid (self : server) (input_data : dict) :
  valid input_data = true ->
  process_thought self input_data
  = (let t := thought_of input_data in
     let history := (thought_history self ++ [t])%list in
     if truthy (get input_data "branchFromThought")
        && truthy (get input_data "branchId")
     then
       if hashable (get input_data "branchId")
       then
         (response t (track (branches self) (get input_data "branchId") t) history,
          {| thought_history := history;
             branches := track (branches self) (get input_data "branchId") t |})
       else
         (failed (TypeError "unhashable type: 'list'"),
          {| thought_history := history; branches := branches self |})
     else
       (response t (branches self) history,
        {| thought_history := history; branches := branches self |})).
Proof.
  intros Hv; unfold process_thought; rewrite (validate_valid _ Hv).
  unfold thought_of, track, response.
  cbn [get lookup String.eqb Ascii.eqb Bool.eqb].
  destruct (int_of (get input_data "thoughtNumber")
            >? int_of (get input_data "totalThoughts"))%Z;
    cbn [set get lookup String.eqb Ascii.eqb Bool.eqb];
    (destruct (truthy (get input_data "branchFromThought")
               && truthy (get input_data "branchId"));
     [destruct (hashable (get input_data "branchId"))|]); reflexivity.
Qed.

Lemma process_thought_invalid (self : server) (input_data : dict) :
  valid input_data = false ->
  exists e, process_thought self input_data = (failed e, self).
Proof.
  intros H; apply validate_fails_iff in H; destruct H as [e H].
  exists e; unfold process_thought; now rewrite H.
Qed.

(** ** Keys *)

Lemma key_eqb_refl (k : value) : hashable k = true -> key_eqb k k = true.
Proof.
  destruct k as [|[]|n|s|items]; simpl; try reflexivity; try discriminate; intros _.
  - apply Z.eqb_refl.
  - apply String.eqb_refl.
Qed.

Lemma key_eqb_sym (a b : value) : key_eqb a b = key_eqb b a.
Proof.
  destruct a as [|[]|n|s|items], b as [|[]|m|s'|items']; cbn [key_eqb int_of];
    first [reflexivity | apply Z.eqb_sym | apply String.eqb_sym].
Qed.

Lemma key_eqb_shift (a b c : value) :
  key_eqb a b = true -> key_eqb a c = key_eqb b c.
Proof.
  destruct a as [|[]|n|s|items], b as [|[]|m|s'|items']; cbn [key_eqb int_of];
    try discriminate; intros H;
    try (apply Z.eqb_eq in H); try (apply String.eqb_eq in H); subst;
    destruct c as [|[]|p|s''|items'']; reflexivity.
Qed.

Lemma key_eqb_congr (a b c : value) :
  key_eqb a b = true -> key_eqb c a = key_eqb c b.
Proof.
  intros H; rewrite (key_eqb_sym c a), (key_eqb_sym c b); now apply key_eqb_shift.
Qed.

Lemma branch_at_congr (bs : list (value * list dict)) (a b : value) :
  key_eqb a b = true -> branch_at bs a = branch_at bs b.
Proof.
  intros H; induction bs as [|[k ts] bs IH]; simpl; [reflexivity|].
  now rewrite (key_eqb_congr a b k H), IH.
Qed.

Lemma has_key_false (bs : list (value * list dict)) (k : value) :
  has_key bs k = false ->
  Forall (fun k' => key_eqb k' k = false) (map fst bs).
Proof.
  induction bs as [|[k' ts] bs IH]; simpl; [constructor|].
  intros H; apply orb_false_iff in H; destruct H as [H1 H2].
  constructor; [exact H1 | now apply IH].
Qed.

Lemma has_key_branch_at (bs : list (value * list dict)) (k : value) :
  has_key bs k = false -> branch_at bs k = [].
Proof.
  induction bs as [|[k' ts] bs IH]; simpl; [reflexivity|].
  intros H; apply orb_false_iff in H; destruct H as [H1 H2].
  rewrite H1; now apply IH.
Qed.

(** ** Filing a thought under a branch *)

Lemma track_nil (branch_id : value) (t : dict) :
  hashable branch_id = true -> track [] branch_id t = [(branch_id, [t])].
Proof.
  intros H; unfold track; simpl; now rewrite (key_eqb_refl _ H).
Qed.

Lemma track_cons (k : value) (ts : list dict) (bs : list (value * list dict))
  (branch_id : value) (t : dict) :
  track ((k, ts) :: bs) branch_id t
  = if key_eqb k branch_id then (k, (ts ++ [t])%list) :: bs
    else (k, ts) :: track bs branch_id t.
Proof.
  unfold track; simpl; destruct (key_eqb k branch_id) eqn:E; simpl.
  - now rewrite E.
  - destruct (has_key bs branch_id); simpl; now rewrite E.
Qed.

Section Track.
Variable branch_id : value.
Variable t : dict.
Hypothesis hashable_id : hashable branch_id = true.

Lemma track_keys (bs : list (value * list dict)) :
  map fst (track bs branch_id t)
  = (map fst bs ++ if has_key bs branch_id then [] else [branch_id])%list.
Proof.
  induction bs as [|[k ts] bs IH]; [now rewrite track_nil|].
  rewrite track_cons; simpl; destruct (key_eqb k branch_id); simpl.
  - now rewrite app_nil_r.
  - now rewrite IH.
Qed.

Lemma has_key_track (bs : list (value * list dict)) :
  has_key (track bs branch_id t) branch_id = true.
Proof.
  induction bs as [|[k ts] bs IH].
  - rewrite track_nil by exact hashable_id; simpl.
    now rewrite (key_eqb_refl _ hashable_id).
  - rewrite track_cons; destruct (key_eqb k branch_id) eqn:E; simpl; rewrite E;
      [reflexivity | exact IH].
Qed.

Lemma track_at_same (bs : list (value * list dict)) :
  branch_at (track bs branch_id t) branch_id
  = (branch_at bs branch_id ++ [t])%list.
Proof.
  induction bs as [|[k ts] bs IH].
  - rewrite track_nil by exact hashable_id; simpl.
    now rewrite (key_eqb_refl _ hashable_id).
  - rewrite track_cons; destruct (key_eqb k branch_id) eqn:E; simpl; rewrite E;
      [reflexivity | exact IH].
Qed.

Lemma track_at_other (bs : list (value * list dict)) (k : value) :
  key_eqb branch_id k = false ->
  branch_at (track bs branch_id t) k = branch_at bs k.
Proof.
  intros Hk; induction bs as [|[k' ts] bs IH].
  - rewrite track_nil by exact hashable_id; simpl; now rewrite Hk.
  - rewrite track_cons; destruct (key_eqb k' branch_id) eqn:E; simpl.
    + rewrite (key_eqb_shift _ _ k E), Hk; reflexivity.
    + now rewrite IH.
Qed.

Lemma track_forall (Q : value -> list dict -> Prop)
  (bs : list (value * list dict)) :
  Forall (fun b => Q (fst b) (snd b)) bs ->
  (forall k ts, Q k ts -> key_eqb k branch_id = true -> Q k (ts ++ [t])%list) ->
  Q branch_id [t] ->
  Forall (fun b => Q (fst b) (snd b)) (track bs branch_id t).
Proof.
  intros Hbs Hadd Hnew; induction Hbs as [|[k ts] bs Hb Hbs IH].
  - rewrite track_nil by exact hashable_id; constructor; [exact Hnew | constructor].
  - rewrite track_cons; destruct (key_eqb k branch_id) eqn:E.
    + constructor; [now apply Hadd | exact Hbs].
    + constructor; [exact Hb | exact IH].
Qed.

End Track.

Lemma distinct_snoc (ks : list value) (k : value) :
  distinct_keys ks ->
  Forall (fun k' => key_eqb k' k = false) ks ->
  distinct_keys (ks ++ [k]).
Proof.
  induction ks as [|k' ks IH]; simpl; intros Hd Hk.
  - split; constructor.
  - destruct Hd as [Hd1 Hd2]; inversion Hk as [|? ? Hk1 Hk2]; subst; split.
    + apply Forall_app; split; [exact Hd1 | now constructor].
    + now apply IH.
Qed.

(** ** What is recorded *)

Lemma stored_thought_ok (input_data : dict) :
  valid input_data = true -> stored_ok (thought_of input_data).
Proof.
  unfold valid; intros H.
  apply andb_true_iff in H; destruct H as [H H4].
  apply andb_true_iff in H; destruct H as [H H3].
  apply andb_true_iff in H; destruct H as [H1 H2].
  unfold stored_ok, validate_thought_data, thought_of.
  cbn [get lookup String.eqb Ascii.eqb Bool.eqb].
  destruct (int_of (get input_data "thoughtNumber")
            >? int_of (get input_data "totalThoughts"))%Z eqn:E;
    rewrite ?H1, ?H2, ?H3, ?H4; (split; [reflexivity|]).
  - lia.
  - rewrite Z.gtb_ltb in E; apply Z.ltb_ge in E; lia.
Qed.

Lemma branch_ok_more (history : list dict) (t : dict) (k : value) (ts : list dict) :
  branch_ok history k ts -> branch_ok (history ++ [t]) k ts.
Proof.
  intros [H1 [H2 [H3 H4]]]; repeat (split; [assumption|]).
  eapply Forall_impl; [|exact H4].
  intros t' [Ha Hb]; split; [apply in_or_app; now left | exact Hb].
Qed.

Lemma consistent_step (s : server) (input_data : dict) :
  consistent s -> consistent (snd (process_thought s input_data)).
Proof.
  intros [Hh [Hd Hb]]; destruct (valid input_data) eqn:Hv.
  - rewrite (process_thought_valid s input_data Hv); cbv zeta.
    pose proof (stored_thought_ok input_data Hv) as Ht.
    assert (Hh' : Forall stored_ok (thought_history s ++ [thought_of input_data])).
    { apply Forall_app; split; [exact Hh | now constructor]. }
    assert (Hb' : Forall (fun b => branch_ok
                            (thought_history s ++ [thought_of input_data])
                            (fst b) (snd b)) (branches s)).
    { eapply Forall_impl; [|exact Hb]. intros b; apply branch_ok_more. }
    destruct (truthy (get input_data "branchFromThought")
              && truthy (get input_data "branchId")) eqn:Hboth;
      [destruct (hashable (get input_data "branchId")) eqn:Hhash|];
      cbn [snd]; unfold consistent; cbn [thought_history branches].
    + apply andb_true_iff in Hboth; destruct Hboth as [Hfrom Hid].
      split; [exact Hh'|]. split.
      * rewrite (track_keys _ _ Hhash).
        destruct (has_key (branches s) (get input_data "branchId")) eqn:Hk.
        -- now rewrite app_nil_r.
        -- apply distinct_snoc; [exact Hd | now apply has_key_false].
      * apply (track_forall _ _ Hhash
                 (branch_ok (thought_history s ++ [thought_of input_data])));
          [exact Hb' | |].
        -- intros k ts [Q1 [Q2 [Q3 Q4]]] Hk.
           split; [exact Q1|]. split; [exact Q2|]. split.
           ++ destruct ts; discriminate.
           ++ apply Forall_app; split; [exact Q4|].
              constructor; [|constructor].
              split; [apply in_or_app; right; now left|].
              split; [exact Hfrom | exact Hk].
        -- split; [exact Hhash|]. split; [exact Hid|]. split; [discriminate|].
           constructor; [|constructor].
           split; [apply in_or_app; right; now left|].
           split; [exact Hfrom | now apply key_eqb_refl].
    + split; [exact Hh'|]. split; [exact Hd | exact Hb'].
    + split; [exact Hh'|]. split; [exact Hd | exact Hb'].
  - destruct (process_thought_invalid s input_data Hv) as [e ->].
    now split.
Qed.

Lemma consistent_run (inputs : list dict) :
  forall s, consistent s -> consistent (run_thoughts s inputs).
Proof.
  unfold run_thoughts; induction inputs as [|input_data inputs IH]; intros s Hs;
    simpl; [exact Hs|].
  apply IH; now apply consistent_step.
Qed.

(** X18.  Whatever the calls made on a fresh server, valid or not, the
    server stays consistent: each recorded thought passes validation
    unchanged and has [thoughtNumber <= totalThoughts]; the keys of
    [branches] are hashable, truthy and pairwise different; each branch
    holds at least one thought, and its thoughts are in the history,
    have a truthy [branchFromThought] and carry the key as [branchId]. *)
Theorem server_stays_consistent (inputs : list dict) :
  consistent (run_thoughts init inputs).
Proof.
  apply consistent_run; repeat split; constructor.
Qed.



(** One call forgets nothing. *)
Lemma step_grows (s : server) (input_data : dict) :
  (exists more,
      thought_history (snd (process_thought s input_data))
      = (thought_history s ++ more)%list
      /\ (List.length more <= 1)%nat)
  /\ (forall k, exists extra,
         branch_at (branches (snd (process_thought s input_data))) k
         = (branch_at (branches s) k ++ extra)%list)
  /\ (exists new_keys,
         map fst (branches (snd (process_thought s input_data)))
         = (map fst (branches s) ++ new_keys)%list).
Proof.
  destruct (valid input_data) eqn:Hv.
  - rewrite (process_thought_valid s input_data Hv); cbv zeta.
    destruct (truthy (get input_data "branchFromThought")
              && truthy (get input_data "branchId")) eqn:Hboth;
      [destruct (hashable (get input_data "branchId")) eqn:Hhash|];
      cbn [snd thought_history branches];
      (split; [eexists; split; [reflexivity | simpl; lia]|]).
    + split.
      * intros k; destruct (key_eqb (get input_data "branchId") k) eqn:Hk.
        -- rewrite <- !(branch_at_congr _ _ _ Hk).
           rewrite (track_at_same _ _ Hhash); now eexists.
        -- rewrite (track_at_other _ _ Hhash _ _ Hk); exists [];
             now rewrite app_nil_r.
      * rewrite (track_keys _ _ Hhash); now eexists.
    + split; [intros k|]; exists []; now rewrite app_nil_r.
    + split; [intros k|]; exists []; now rewrite app_nil_r.
  - destruct (process_thought_invalid s input_data Hv) as [e ->]; cbn [snd].
    split; [exists []; split; [now rewrite app_nil_r | simpl; lia]|].
    split; [intros k|]; exists []; now rewrite app_nil_r.
Qed.

(** X20.  The server forgets nothing.  Over any sequence of calls the
    history they start from is a prefix of the history they end with,
    which grows by at most one thought a call; every branch keeps its
    thoughts, in order, at the front of what it holds afterwards; the
    branch keys stay, in order, at the front of the keys. *)
Theorem nothing_forgotten (self : server) (inputs : list dict) :
  (exists more,
      thought_history (run_thoughts self inputs)
      = (thought_history self ++ more)%list
      /\ (List.length more <= List.length inputs)%nat)
  /\ (forall k, exists extra,
         branch_at (branches (run_thoughts self inputs)) k
         = (branch_at (branches self) k ++ extra)%list)
  /\ (exists new_keys,
         map fst (branches (run_thoughts self inputs))
         = (map fst (branches self) ++ new_keys)%list).
Proof.
  unfold run_thoughts; revert self.
  induction inputs as [|input_data inputs IH]; intros self; simpl.
  - split; [exists []; split; [now rewrite app_nil_r | simpl; lia]|].
    split; [intros k|]; exists []; now rewrite app_nil_r.
  - destruct (IH (snd (process_thought self input_data)))
      as [[more2 [H2 L2]] [B2 [keys2 K2]]].
    destruct (step_grows self input_data) as [[more1 [H1 L1]] [B1 [keys1 K1]]].
    split; [|split].
    + exists (more1 ++ more2)%list; rewrite H2, H1, <- app_assoc.
      split; [reflexivity | rewrite length_app; lia].
    + intros k; destruct (B2 k) as [e2 E2]; destruct (B1 k) as [e1 E1].
      exists (e1 ++ e2)%list; now rewrite E2, E1, <- app_assoc.
    + exists (keys1 ++ keys2)%list; now rewrite K2, K1, <- app_assoc.
Qed.



Example zero_is_no_branch_point :
  branches (snd (process_thought init
                   [("thought", VStr "t"); ("thoughtNumber", VInt 1);
                    ("totalThoughts", VInt 1); ("nextThoughtNeeded", VBool true);
                    ("branchFromThought", VInt 0); ("branchId", VStr "b")]))
  = [].
Proof. reflexivity. Qed.

(** ** The tool *)

Lemma get_set (d : dict) (key : string) (v : value) (k : string) :
  get (set d key v) k = if key =? k then v else get d k.
Proof.
  unfold get; induction d as [|[k0 w] d IH]; simpl.
  - now destruct (key =? k).
  - destruct (k0 =? key) eqn:E0; simpl.
    + apply String.eqb_eq in E0; subst k0.
      now destruct (key =? k).
    + destruct (k0 =? k) eqn:E1; [|exact IH].
      apply String.eqb_eq in E1; subst k0.
      now rewrite String.eqb_sym, E0.
Qed.

Lemma get_set_if_given (d : dict) (key : string) (v : value) (k : string) :
  get d key = VNone ->
  get (set_if_given d key v) k = if key =? k then v else get d k.
Proof.
  intros Hd; destruct v; simpl; try apply get_set.
  destruct (key =? k) eqn:E; [|reflexivity].
  apply String.eqb_eq in E; now subst k.
Qed.

Lemma validate_same_fields (d d' : dict) :
  thought_of d = thought_of d' ->
  get d "totalThoughts" = get d' "totalThoughts" ->
  validate_thought_data d = validate_thought_data d'.
Proof.
  unfold thought_of, validate_thought_data; intros H Ht.
  injection H as H1 H2 _ H4 H5 H6 H7 H8 H9.
  now rewrite H1, H2, Ht, H4, H5, H6, H7, H8, H9.
Qed.

Section Tool.
Variable self : server.
Variables thought thoughtNumber totalThoughts nextThoughtNeeded : value.
Variables isRevision revisesThought branchFromThought branchId : value.
Variable needsMoreThoughts : value.

Let all_given : dict :=
  [ ("thought", thought);
    ("thoughtNumber", thoughtNumber);
    ("totalThoughts", totalThoughts);
    ("nextThoughtNeeded", nextThoughtNeeded);
    ("isRevision", isRevision);
    ("revisesThought", revisesThought);
    ("branchFromThought", branchFromThought);
    ("branchId", branchId);
    ("needsMoreThoughts", needsMoreThoughts) ].

(** Leaving an optional argument out of [input_data] is the same as
    passing [None] under its key. *)
Lemma optional_arguments :
  sequentialthinking self thought thoughtNumber totalThoughts nextThoughtNeeded
    isRevision revisesThought branchFromThought branchId needsMoreThoughts
  = process_thought self all_given.
Proof.
  unfold sequentialthinking.
  set (d0 := [("thought", thought); ("thoughtNumber", thoughtNumber);
              ("totalThoughts", totalThoughts);
              ("nextThoughtNeeded", nextThoughtNeeded)]).
  set (d1 := set_if_given d0 "isRevision" isRevision).
  set (d2 := set_if_given d1 "revisesThought" revisesThought).
  set (d3 := set_if_given d2 "branchFromThought" branchFromThought).
  set (d4 := set_if_given d3 "branchId" branchId).
  set (d5 := set_if_given d4 "needsMoreThoughts" needsMoreThoughts).
  assert (G1 : forall k, get d1 k = if "isRevision" =? k then isRevision else get d0 k)
    by (intros k; apply get_set_if_given; reflexivity).
  assert (G2 : forall k, get d2 k
                         = if "revisesThought" =? k then revisesThought else get d1 k)
    by (intros k; apply get_set_if_given; rewrite G1; reflexivity).
  assert (G3 : forall k, get d3 k
                         = if "branchFromThought" =? k then branchFromThought
                           else get d2 k)
    by (intros k; apply get_set_if_given; rewrite G2, G1; reflexivity).
  assert (G4 : forall k, get d4 k = if "branchId" =? k then branchId else get d3 k)
    by (intros k; apply get_set_if_given; rewrite G3, G2, G1; reflexivity).
  assert (G5 : forall k, get d5 k
                         = if "needsMoreThoughts" =? k then needsMoreThoughts
                           else get d4 k)
    by (intros k; apply get_set_if_given; rewrite G4, G3, G2, G1; reflexivity).
  unfold process_thought.
  rewrite (validate_same_fields d5 all_given); [reflexivity| |].
  - unfold thought_of; rewrite !G5, !G4, !G3, !G2, !G1; reflexivity.
  - rewrite G5, G4, G3, G2, G1; reflexivity.
Qed.

End Tool.



(** The annotations are not checked: a number as [thought] is answered
    as failed. *)
Example untyped_thought :
  fst (sequentialthinking init (VInt 7) (VInt 1) (VInt 3) (VBool true)
         VNone VNone VNone VNone VNone)
  = [("error", VStr "Invalid thought: must be a string"); ("status", VStr "failed")].
Proof. reflexivity. Qed.

End MoreThinking.
